(** * extract_google_alerts_mbox: a shallow embedding of the extraction script

    The script [extract_google_alerts_mbox.py] reads an mbox archive of
    Google Alerts digests, keeps the HTML body, date and message id of each
    message, finds the schema.org Article rows of each body, and writes one
    tab-separated row per article.

    The embedding follows the script top to bottom:
    - [Py]: exceptions, results, and the Python values the script handles;
    - [DateFormat]: the [date_mdcy] expression (lines 78-80);
    - [Mbox]: the message loop (lines 58-91);
    - [Url]: [urllib.parse.urlparse] / [parse_qs] as used on lines 126-127;
    - [Html]: the BeautifulSoup operations of lines 110-119;
    - [Articles]: the article loop (lines 108-135);
    - [Script]: the phases in sequence, with output and the archive handle;
    - [Sample]: a small archive on which the properties are tried.

    The standard library and third-party functions that the script calls
    are modelled where their behaviour decides a property ([urlparse],
    [parse_qs], [find_all], [replace_with_children], [str]) and taken as
    parameters where it does not ([parsedate_tz], the HTML parser, the
    microdata extractor).

    Python [str] values are modelled as byte strings holding their UTF-8
    encoding; Python [int] values as [Z] or [nat] (they are unbounded). *)

From Stdlib Require Import ZArith Lia Bool Ascii String List.
From Stdlib Require Import DecimalString.
From stdpp Require Import base option list strings gmap.

Import ListNotations.
Set Warnings "-register-all".
Local Open Scope string_scope.
Local Open Scope list_scope.

(* ===================================================================== *)
(** ** Python values, exceptions and results *)
(* ===================================================================== *)

Module Py.

(** The exception classes that the modelled statements can raise. *)
Inductive exn : Set :=
| IndexError
| KeyError
| TypeError
| AttributeError
| ValueError
| UnicodeDecodeError
| IOError.

(** A computation either returns a value or raises. *)
Inductive res (A : Type) : Type :=
| Ok (a : A)
| Raise (e : exn).
Arguments Ok {A} a.
Arguments Raise {A} e.

Definition bind {A B} (m : res A) (k : A -> res B) : res B :=
  match m with
  | Ok a => k a
  | Raise e => Raise e
  end.

(** The objects that the structured-data extractor returns and that end up
    in the output rows: [None], strings, lists and dictionaries. *)
Inductive value : Type :=
| VNone
| VStr (s : string)
| VList (l : list value)
| VDict (d : gmap string value).

(** Truth value of an object ([if x], [x and ...]). *)
Definition truthy (v : value) : bool :=
  match v with
  | VNone => false
  | VStr s => negb (String.eqb s "")
  | VList l => match l with [] => false | _ => true end
  | VDict d => negb (bool_decide (d = ∅))
  end.

(** [v[k]] for a string key [k]: a dictionary looks the key up, every
    other object refuses a string subscript. *)
Definition getitem (v : value) (k : string) : res value :=
  match v with
  | VDict d => match d !! k with
               | Some x => Ok x
               | None => Raise KeyError
               end
  | _ => Raise TypeError
  end.

(** [l[0]] on a Python list. *)
Definition item0 {A} (l : list A) : res A :=
  match l with
  | x :: _ => Ok x
  | [] => Raise IndexError
  end.

End Py.

(** [res] is used through stdpp's monad notation [x ← m; k]. *)
#[export] Instance res_ret : MRet Py.res := @Py.Ok.
#[export] Instance res_bind : MBind Py.res := fun A B k m => Py.bind m k.

(* ===================================================================== *)
(** ** The date code (lines 78-80) *)
(* ===================================================================== *)

Module DateFormat.

(** [str(n)] for a Python int: decimal digits, a leading [-] when
    negative. *)
Definition str_int (n : Z) : string :=
  NilZero.string_of_int (Z.to_int n).

(** [s.rjust(w, c)]: pad on the left with [c] up to width [w]. *)
Fixpoint pad_left (c : ascii) (k : nat) (s : string) : string :=
  match k with
  | O => s
  | S k' => String c (pad_left c k' s)
  end.

Definition rjust (w : nat) (c : ascii) (s : string) : string :=
  pad_left c (w - String.length s) s.

(** [str("{:0>2}").format(n)]: fill ["0"], align right, minimum width 2.
    The field width is a minimum: longer texts are not cut. *)
Definition format_0gt2 (n : Z) : string :=
  rjust 2 "0"%char (str_int n).

(** The entries of [date_tuple] that the script reads: index 0 is the
    year, 1 the month, 2 the day. *)
Record date_tuple : Set := DateTuple {
  dt_year : Z;
  dt_month : Z;
  dt_day : Z
}.

(** Lines 78-80: the three fields joined with the empty separator; the
    year goes through the same width-2 format as month and day. *)
Definition date_mdcy (t : date_tuple) : string :=
  String.concat "" [format_0gt2 (dt_month t);
                    format_0gt2 (dt_day t);
                    format_0gt2 (dt_year t)].

(** Decimal digit character of a number below ten. *)
Definition digit_char (d : Z) : ascii :=
  ascii_of_nat (48 + Z.to_nat d).

Definition is_digit (c : ascii) : bool :=
  let n := nat_of_ascii c in (48 <=? n)%nat && (n <=? 57)%nat.

Fixpoint all_digits (s : string) : bool :=
  match s with
  | EmptyString => true
  | String c s' => is_digit c && all_digits s'
  end.

(** Two-digit and four-digit zero-padded decimal texts. *)
Definition two_digits (n : Z) : string :=
  String (digit_char (n / 10)) (String (digit_char (n mod 10)) "").

Definition four_digits (n : Z) : string :=
  String (digit_char (n / 1000))
    (String (digit_char (n / 100 mod 10))
       (String (digit_char (n / 10 mod 10))
          (String (digit_char (n mod 10)) ""))).

End DateFormat.

(* ===================================================================== *)
(** ** Program state *)
(* ===================================================================== *)

Module St.
Import Py.

(** An element of [messages_parsed]: [[date_mdcy, message_id,
    html_content]].  [message['message-ID']] is [None] when the header is
    absent. *)
Record entry : Type := Entry {
  e_date : string;
  e_message_id : option string;
  e_html : string
}.

(** An element of [article_list]:
    [[entry[0], entry[1], url, title, publisher, teaser]]. *)
Record row : Type := Row {
  r_date : string;
  r_message_id : option string;
  r_url : string;
  r_title : value;
  r_publisher : value;
  r_teaser : value
}.

(** What the script prints, one constructor per [print] call. *)
Inductive line : Type :=
| SkipDefects (key : nat) (defects : list string)
| SkipDate (key : nat) (date : option string)
| TotalMessages (n : nat)
| TotalDefective (n : nat)
| TotalExtracted (n : nat)
| ArchiveClosed
| ArchiveCloseError
| ExtractedArticles (n : nat)
| AllOutput
| OutputError.

(** The output file: as it was before the run, or truncated by
    [open(..., 'w')] and holding the rows that reached it. *)
Inductive file : Type :=
| Untouched
| Written (rows : list row).

(** The module-level variables of the script (lines 41-44), the console,
    the mailbox handle and the output file. *)
Record state : Type := State {
  messages_parsed : list entry;
  messages_total : nat;
  messages_defective : nat;
  article_list : list row;
  stdout : list line;
  archive_open : bool;
  output_file : file
}.

(** Lines 41-44 and 54: empty lists, zero counters, mailbox opened. *)
Definition initial : state :=
  State [] 0 0 [] [] true Untouched.

Definition print (l : line) (st : state) : state :=
  State (messages_parsed st) (messages_total st) (messages_defective st)
        (article_list st) (stdout st ++ [l]) (archive_open st)
        (output_file st).

Definition incr_total (st : state) : state :=
  State (messages_parsed st) (messages_total st + 1) (messages_defective st)
        (article_list st) (stdout st) (archive_open st) (output_file st).

Definition incr_defective (st : state) : state :=
  State (messages_parsed st) (messages_total st) (messages_defective st + 1)
        (article_list st) (stdout st) (archive_open st) (output_file st).

Definition append_parsed (e : entry) (st : state) : state :=
  State (messages_parsed st ++ [e]) (messages_total st)
        (messages_defective st) (article_list st) (stdout st)
        (archive_open st) (output_file st).

Definition append_article (r : row) (st : state) : state :=
  State (messages_parsed st) (messages_total st) (messages_defective st)
        (article_list st ++ [r]) (stdout st) (archive_open st)
        (output_file st).

(** The state after [rows] more appends to [article_list]. *)
Definition extend_articles (rows : list row) (st : state) : state :=
  State (messages_parsed st) (messages_total st) (messages_defective st)
        (article_list st ++ rows) (stdout st) (archive_open st)
        (output_file st).

Definition set_output (f : file) (st : state) : state :=
  State (messages_parsed st) (messages_total st) (messages_defective st)
        (article_list st) (stdout st) (archive_open st) f.

Definition set_archive_open (b : bool) (st : state) : state :=
  State (messages_parsed st) (messages_total st) (messages_defective st)
        (article_list st) (stdout st) b (output_file st).

(** A statement either completes in a state, or dies with an uncaught
    exception in the state reached so far. *)
Inductive result : Type :=
| Done (st : state)
| Crashed (e : exn) (st : state).

Definition and_then (r : result) (k : state -> result) : result :=
  match r with
  | Done st => k st
  | Crashed e st => Crashed e st
  end.

(** [for x in l: body]. *)
Fixpoint for_each {A} (body : A -> state -> result) (l : list A)
    (st : state) : result :=
  match l with
  | [] => Done st
  | x :: l' => and_then (body x st) (for_each body l')
  end.

Definition final_state (r : result) : state :=
  match r with
  | Done st => st
  | Crashed _ st => st
  end.

(** The parts of the state that only the article loop and the output
    block write, and the mailbox handle. *)
Definition later_parts (st : state) : list row * file * bool :=
  (article_list st, output_file st, archive_open st).

End St.

Infix ">>>" := St.and_then (at level 50, left associativity).

(* ===================================================================== *)
(** ** The message loop (lines 58-95) *)
(* ===================================================================== *)

Module Mbox.
Import Py St DateFormat.

(** [needle in s] for strings. *)
Fixpoint contains (needle s : string) : bool :=
  String.prefix needle s
  || match s with
     | EmptyString => false
     | String _ s' => contains needle s'
     end.

(** A message part as [email.message.Message] presents it.  A leaf carries
    the text that [get_payload(decode=True).decode('utf-8')] returns, or
    [None] when the decoded bytes are not UTF-8.  A multipart container
    has a list of sub-parts; its [get_payload(decode=True)] is [None]. *)
Inductive part : Type :=
| Leaf (content_type : string) (text : option string)
| Multipart (content_type : string) (subparts : list part).

Definition get_content_type (p : part) : string :=
  match p with
  | Leaf ct _ => ct
  | Multipart ct _ => ct
  end.

(** [step.get_payload(decode=True).decode('utf-8')] (line 73). *)
Definition payload_text (p : part) : res string :=
  match p with
  | Leaf _ (Some s) => Ok s
  | Leaf _ None => Raise UnicodeDecodeError
  | Multipart _ _ => Raise AttributeError
  end.

(** [Message.walk()]: the part itself, then its sub-parts depth first. *)
Fixpoint walk (p : part) : list part :=
  match p with
  | Leaf _ _ => [p]
  | Multipart _ subs => p :: flat_map walk subs
  end.

(** A message of the archive: [message.defects], [message['date']],
    [message['message-ID']] and the part tree. *)
Record message : Type := Message {
  defects : list string;
  date : option string;
  message_id : option string;
  body : part
}.

Definition is_html (p : part) : bool := contains "html" (get_content_type p).

(** The parts of a message whose content type contains "html", in the
    order of the walk. *)
Definition html_parts (m : message) : list part :=
  List.filter is_html (walk (body m)).

Section Loop.

(** [email.utils.parsedate_tz]: [None] for a text it cannot parse,
    otherwise a tuple of which the script reads year, month and day. *)
Variable parsedate_tz : option string -> option date_tuple.

(** Lines 68-91, the body of [for step in message.walk()].  The
    [continue] of line 84 resumes this loop over the parts. *)
Definition part_body (key : nat) (m : message) (step : part)
    (st : state) : result :=
  if is_html step then
    match payload_text step with
    | Raise e => Crashed e st
    | Ok html_content =>
        match parsedate_tz (date m) with
        | Some date_tuple =>
            Done (append_parsed
                    (Entry (date_mdcy date_tuple) (message_id m)
                           html_content) st)
        | None =>
            Done (incr_defective (print (SkipDate key (date m)) st))
        end
    end
  else Done st.

(** Lines 59-91, the body of [for key in archive.iterkeys()]. *)
Definition message_body (km : nat * message) (st : state) : result :=
  let (key, m) := km in
  let st := incr_total st in
  match defects m with
  | _ :: _ =>
      Done (incr_defective (print (SkipDefects key (defects m)) st))
  | [] => for_each (part_body key m) (walk (body m)) st
  end.

(** Lines 58-91. *)
Definition read_messages (archive : list (nat * message))
    (st : state) : result :=
  for_each message_body archive st.

(** Lines 93-95. *)
Definition report (st : state) : result :=
  Done (print (TotalExtracted (length (messages_parsed st)))
         (print (TotalDefective (messages_defective st))
            (print (TotalMessages (messages_total st)) st))).

End Loop.

(** [mailbox.mbox.close()]: flushes and releases the file. *)
Definition mbox_close (st : state) : result :=
  Done (set_archive_open false st).

(** Lines 97-101.  Line 98 is the expression [archive.close]: it looks the
    bound method up and discards it, so nothing is called and nothing can
    raise inside the [try]. *)
Definition close_stage (st : state) : result :=
  Done (print ArchiveClosed st).

(** Number of messages without defects none of whose parts is HTML. *)
Definition no_html (m : message) : bool :=
  match defects m with
  | [] => forallb (fun p => negb (is_html p)) (walk (body m))
  | _ => false
  end.

Definition count_no_html (archive : list (nat * message)) : nat :=
  length (List.filter (fun km => no_html (snd km)) archive).

(** What one message adds to [messages_defective] and [messages_parsed]
    together: one when it has defects, otherwise the number of its HTML
    parts. *)
Definition weight (m : message) : nat :=
  match defects m with
  | [] => length (html_parts m)
  | _ => 1
  end.

End Mbox.

(* ===================================================================== *)
(** ** URL parsing (lines 126-127) *)
(* ===================================================================== *)

(** [urllib.parse] as in Python 3.11, the latest version that the script
    accepts (lines 17-20). *)

Module Url.
Import Py.

Definition code (c : ascii) : nat := nat_of_ascii c.

Definition is_ascii (c : ascii) : bool := (code c <? 128)%nat.

Fixpoint all_chars (p : ascii -> bool) (s : string) : bool :=
  match s with
  | EmptyString => true
  | String c s' => p c && all_chars p s'
  end.

Fixpoint has_char (c : ascii) (s : string) : bool :=
  match s with
  | EmptyString => false
  | String a s' => Ascii.eqb a c || has_char c s'
  end.

(** [s.replace(c, "")] for each [c] selected by [p]. *)
Fixpoint remove_chars (p : ascii -> bool) (s : string) : string :=
  match s with
  | EmptyString => EmptyString
  | String c s' =>
      if p c then remove_chars p s' else String c (remove_chars p s')
  end.

(** [s.replace(a, b)] for single characters. *)
Fixpoint replace_char (a b : ascii) (s : string) : string :=
  match s with
  | EmptyString => EmptyString
  | String c s' =>
      String (if Ascii.eqb c a then b else c) (replace_char a b s')
  end.

(** [s.lstrip(chars)]. *)
Fixpoint lstrip (p : ascii -> bool) (s : string) : string :=
  match s with
  | EmptyString => EmptyString
  | String c s' => if p c then lstrip p s' else s
  end.

(** The text before the first character selected by [p], and the text
    from that character on ([None] when there is none). *)
Fixpoint break_at (p : ascii -> bool) (s : string)
    : string * option string :=
  match s with
  | EmptyString => (EmptyString, None)
  | String c s' =>
      if p c then (EmptyString, Some s)
      else let (before, rest) := break_at p s' in (String c before, rest)
  end.

(** [s.split(c, 1)] when [c] occurs in [s]: the text before the first
    [c] and the text after it. *)
Definition split_once (c : ascii) (s : string) : option (string * string) :=
  match break_at (Ascii.eqb c) s with
  | (before, Some (String _ after)) => Some (before, after)
  | _ => None
  end.

(** [s.split(c)]. *)
Fixpoint split_on (c : ascii) (s : string) : list string :=
  match s with
  | EmptyString => [EmptyString]
  | String a s' =>
      if Ascii.eqb a c then EmptyString :: split_on c s'
      else match split_on c s' with
           | x :: r => String a x :: r
           | [] => [String a EmptyString]
           end
  end.

(** *** [urlsplit] *)

(** [_WHATWG_C0_CONTROL_OR_SPACE]. *)
Definition c0_or_space (c : ascii) : bool := (code c <=? 32)%nat.

(** [_UNSAFE_URL_BYTES_TO_REMOVE]: tab, carriage return, line feed. *)
Definition unsafe_byte (c : ascii) : bool :=
  let n := code c in (n =? 9)%nat || (n =? 13)%nat || (n =? 10)%nat.

Definition is_alpha (c : ascii) : bool :=
  let n := code c in
  ((65 <=? n) && (n <=? 90) || (97 <=? n) && (n <=? 122))%nat.

(** [scheme_chars]: letters, digits, [+], [-] and [.]. *)
Definition scheme_char (c : ascii) : bool :=
  let n := code c in
  (is_alpha c || (48 <=? n) && (n <=? 57)
   || (n =? 43) || (n =? 45) || (n =? 46))%nat.

(** The scheme test of [urlsplit]: a colon at a position [i > 0], a first
    character that is an ASCII letter, and only scheme characters before
    the colon; the scheme and the colon are then cut off. *)
Definition strip_scheme (url : string) : string :=
  match split_once ":" url with
  | Some (String c0 rest0, after) =>
      if is_alpha c0 && all_chars scheme_char (String c0 rest0)
      then after else url
  | _ => url
  end.

(** [url[:2] == '//']: the text after two leading slashes. *)
Definition after_slashes (url : string) : option string :=
  match url with
  | String c1 (String c2 after) =>
      if Ascii.eqb c1 "/" && Ascii.eqb c2 "/" then Some after else None
  | _ => None
  end.

(** [_splitnetloc(url, 2)] on the text after the two slashes: the
    authority runs up to the first [/], [?] or [#]. *)
Definition netloc_delim (c : ascii) : bool :=
  Ascii.eqb c "/" || Ascii.eqb c "?" || Ascii.eqb c "#".

Definition splitnetloc (s : string) : string * string :=
  match break_at netloc_delim s with
  | (netloc, Some rest) => (netloc, rest)
  | (netloc, None) => (netloc, EmptyString)
  end.

(** The components of a split URL that matter here; the script reads
    [query] only, [netloc] decides whether the URL is refused. *)
Record split_result : Type := SplitResult {
  netloc : string;
  path : string;
  query : string;
  fragment : string
}.

Section Parse.

(** The checks of [urlsplit] on an authority that is not plain ASCII
    without brackets: the syntax of a bracketed host
    ([_check_bracketed_netloc]) and the NFKC test ([_checknetloc]).
    They depend on the [ipaddress] and [unicodedata] modules and are
    taken as a parameter: [true] when the authority is refused. *)
Variable strict_netloc_refuses : string -> bool.

(** The validation of the authority: [ValueError] for a bracket
    without its partner, and for what the stricter checks refuse.  The
    stricter checks are consulted only for a bracketed or a non-ASCII
    authority. *)
Definition check_netloc (n : string) : res unit :=
  let lb := has_char "[" n in
  let rb := has_char "]" n in
  if xorb lb rb then Raise ValueError
  else if (lb || negb (all_chars is_ascii n)) && strict_netloc_refuses n
       then Raise ValueError
       else Ok tt.

(** [urllib.parse.urlsplit(url)] for a [str] argument. *)
Definition urlsplit (url : string) : res split_result :=
  let url := lstrip c0_or_space url in
  let url := remove_chars unsafe_byte url in
  let url := strip_scheme url in
  nr ← match after_slashes url with
       | Some after =>
           let (n, rest) := splitnetloc after in
           _ ← check_netloc n; Ok (n, rest)
       | None => Ok (EmptyString, url)
       end;
  let (n, url) := (nr : string * string) in
  let (url, frag) :=
    match split_once "#" url with
    | Some (u, f) => (u, f)
    | None => (url, EmptyString)
    end in
  let (url, q) :=
    match split_once "?" url with
    | Some (u, q) => (u, q)
    | None => (url, EmptyString)
    end in
  Ok (SplitResult n url q frag).

(** [urllib.parse.urlparse(url)]: [urlsplit], after which only the path
    is split further (its [;params]); the query is the one of
    [urlsplit]. *)
Definition urlparse (url : string) : res split_result := urlsplit url.

End Parse.

(** *** [unquote] *)

(** Value of a hexadecimal digit ([_hexdig] has both letter cases). *)
Definition hex_value (c : ascii) : option nat :=
  let n := code c in
  if ((48 <=? n) && (n <=? 57))%nat then Some (n - 48)%nat
  else if ((65 <=? n) && (n <=? 70))%nat then Some (n - 55)%nat
  else if ((97 <=? n) && (n <=? 102))%nat then Some (n - 87)%nat
  else None.

(** [unquote_to_bytes]: each [%] followed by two hexadecimal digits
    becomes the byte they denote; any other [%] stays. *)
Fixpoint unquote_to_bytes (s : string) : string :=
  match s with
  | EmptyString => EmptyString
  | String c t =>
      if Ascii.eqb c "%" then
        match t with
        | String a (String b r) =>
            match hex_value a, hex_value b with
            | Some x, Some y =>
                String (ascii_of_nat (16 * x + y)) (unquote_to_bytes r)
            | _, _ => String c (unquote_to_bytes t)
            end
        | _ => String c (unquote_to_bytes t)
        end
      else String c (unquote_to_bytes t)
  end.

(** The UTF-8 encoding of U+FFFD, the replacement character. *)
Definition replacement : string :=
  String (ascii_of_nat 239) (String (ascii_of_nat 191)
    (String (ascii_of_nat 189) EmptyString)).

Definition in_range (lo hi : nat) (c : ascii) : bool :=
  ((lo <=? code c) && (code c <=? hi))%nat.

Definition continuation : ascii -> bool := in_range 128 191.

(** Allowed range of the byte after the lead byte [c] of a three- or
    four-byte sequence. *)
Definition second_byte (c : ascii) : ascii -> bool :=
  let n := code c in
  if (n =? 224)%nat then in_range 160 191
  else if (n =? 237)%nat then in_range 128 159
  else if (n =? 240)%nat then in_range 144 191
  else if (n =? 244)%nat then in_range 128 143
  else continuation.

(** [bytes.decode('utf-8', 'replace')], the result again as UTF-8: well
    formed sequences are kept, every maximal ill-formed piece becomes
    U+FFFD. *)
Fixpoint decode_replace (s : string) : string :=
  match s with
  | EmptyString => EmptyString
  | String c t =>
      if is_ascii c then String c (decode_replace t)
      else if in_range 194 223 c then
        match t with
        | String c1 r1 =>
            if continuation c1
            then String c (String c1 (decode_replace r1))
            else replacement +:+ decode_replace t
        | EmptyString => replacement
        end
      else if in_range 224 239 c then
        match t with
        | String c1 r1 =>
            if second_byte c c1 then
              match r1 with
              | String c2 r2 =>
                  if continuation c2
                  then String c (String c1 (String c2 (decode_replace r2)))
                  else replacement +:+ decode_replace r1
              | EmptyString => replacement
              end
            else replacement +:+ decode_replace t
        | EmptyString => replacement
        end
      else if in_range 240 244 c then
        match t with
        | String c1 r1 =>
            if second_byte c c1 then
              match r1 with
              | String c2 r2 =>
                  if continuation c2 then
                    match r2 with
                    | String c3 r3 =>
                        if continuation c3
                        then String c (String c1 (String c2
                               (String c3 (decode_replace r3))))
                        else replacement +:+ decode_replace r2
                    | EmptyString => replacement
                    end
                  else replacement +:+ decode_replace r1
              | EmptyString => replacement
              end
            else replacement +:+ decode_replace t
        | EmptyString => replacement
        end
      else replacement +:+ decode_replace t
  end.

(** One ASCII run of [unquote]: [unquote_to_bytes(run).decode(...)]. *)
Definition unquote_run (run : string) : string :=
  decode_replace (unquote_to_bytes run).

(** The loop of [unquote] over [_asciire.split(string)]: maximal runs of
    ASCII characters are unquoted and decoded, the text between them is
    kept.  [run] is the ASCII run read so far, last character first. *)
Fixpoint unquote_pieces (run : string) (s : string) : string :=
  match s with
  | EmptyString => unquote_run (String.rev run)
  | String c s' =>
      if is_ascii c then unquote_pieces (String c run) s'
      else unquote_run (String.rev run)
           +:+ String c (unquote_pieces EmptyString s')
  end.

(** [urllib.parse.unquote(string)]. *)
Definition unquote (s : string) : string :=
  if has_char "%" s then unquote_pieces EmptyString s else s.

(** *** [parse_qsl] and [parse_qs] *)

(** One pass of the loop of [parse_qsl] (defaults: blank values dropped,
    lenient parsing): the pairs contributed by the field [name_value]. *)
Definition parse_field (name_value : string) : list (string * string) :=
  match name_value with
  | EmptyString => []
  | _ =>
      match split_once "=" name_value with
      | None => []
      | Some (n, v) =>
          match v with
          | EmptyString => []
          | _ => [(unquote (replace_char "+" " " n),
                   unquote (replace_char "+" " " v))]
          end
      end
  end.

(** [urllib.parse.parse_qsl(qs)]. *)
Definition parse_qsl (qs : string) : list (string * string) :=
  let query_args :=
    match qs with
    | EmptyString => []
    | _ => split_on "&" qs
    end in
  flat_map parse_field query_args.

(** The loop of [parse_qs]: append to the list of a name already seen,
    start a list for a new name. *)
Definition add_pair (parsed_result : gmap string (list string))
    (nv : string * string) : gmap string (list string) :=
  let (name, v) := nv in
  match parsed_result !! name with
  | Some l => <[name := l ++ [v]]> parsed_result
  | None => <[name := [v]]> parsed_result
  end.

(** [urllib.parse.parse_qs(qs)]. *)
Definition parse_qs (qs : string) : gmap string (list string) :=
  foldl add_pair ∅ (parse_qsl qs).

(** [urllib.parse.unquote_plus(string)], which is what [parse_qsl] does
    to a name and to a value. *)
Definition unquote_plus (s : string) : string :=
  unquote (replace_char "+" " " s).

(** The values that a list of pairs gives to the name [k], in order. *)
Definition values_of (k : string) (pairs : list (string * string))
    : list string :=
  map snd (List.filter (fun p => String.eqb (fst p) k) pairs).

(** [d.get(k, default)]. *)
Definition dict_get {V} (d : gmap string V) (k : string) (default : V) : V :=
  match d !! k with
  | Some v => v
  | None => default
  end.

Section Resolve.

Variable strict_netloc_refuses : string -> bool.

(** Lines 126-127 on a [str]:
    [parse_qs(urlparse(google_url).query).get('url', [''])[0]]. *)
Definition resolve (google_url : string) : res string :=
  parsed_url ← urlparse strict_netloc_refuses google_url;
  item0 (dict_get (parse_qs (query parsed_url)) "url" [EmptyString]).

(** Lines 126-127 on whatever object the item holds under [url].  An
    object that is not a [str] goes through the bytes path of
    [urlparse]: a false one ([None], an empty list or dictionary) is
    read as the empty URL, any other has no [decode] method. *)
Definition resolve_value (google_url : value) : res string :=
  match google_url with
  | VStr s => resolve s
  | v => if truthy v then Raise AttributeError else Ok EmptyString
  end.

End Resolve.

(** The characters of a plain URL prefix: ASCII, and none of the
    delimiters [?], [#], nor a square bracket. *)
Definition plain_char (c : ascii) : bool :=
  is_ascii c
  && negb (Ascii.eqb c "?" || Ascii.eqb c "#"
           || Ascii.eqb c "[" || Ascii.eqb c "]").

(** The characters that a query keeps through [urlsplit]: no [#], which
    would start the fragment, and no tab or line break, which are
    removed. *)
Definition query_char (c : ascii) : bool :=
  negb (Ascii.eqb c "#") && negb (unsafe_byte c).

(** No stricter check: enough for URLs with a plain ASCII authority. *)
Definition lenient (n : string) : bool := false.

End Url.

(* ===================================================================== *)
(** ** The HTML tree (lines 109-119) *)
(* ===================================================================== *)

Module Html.

(** A parsed document: text nodes and elements.  Every element object has
    an identity [id]; BeautifulSoup finds the position of a tag in its
    parent by object identity.  [attrs] is the attribute dictionary of the
    tag, listed in the order in which the tag is written out. *)
Inductive node : Type :=
| Text (s : string)
| Tag (id : nat) (name : string) (attrs : list (string * string))
      (children : list node).

(** [tag.descendants] of every node of a forest, in document order. *)
Fixpoint descendants (n : node) : list node :=
  match n with
  | Text _ => []
  | Tag _ _ _ ch => flat_map (fun c => c :: descendants c) ch
  end.

Definition preorder (l : list node) : list node :=
  flat_map (fun c => c :: descendants c) l.

(** [tag.find_all(...)]: the descendants that match, in document order. *)
Definition find_all (p : node -> bool) (l : list node) : list node :=
  List.filter p (preorder l).

(** [tag.attrs.get(k)]. *)
Fixpoint attr (k : string) (attrs : list (string * string)) : option string :=
  match attrs with
  | [] => None
  | (k', v) :: r => if String.eqb k' k then Some v else attr k r
  end.

Definition has_name (n : string) (x : node) : bool :=
  match x with
  | Text _ => false
  | Tag _ name _ _ => String.eqb name n
  end.

Definition article_type : string := "http://schema.org/Article".

(** The filter of line 110: the name [tr] and the attribute [itemtype]
    equal to ['http://schema.org/Article']. *)
Definition is_article (x : node) : bool :=
  match x with
  | Text _ => false
  | Tag _ name attrs _ =>
      String.eqb name "tr"
      && match attr "itemtype" attrs with
         | Some v => String.eqb v article_type
         | None => false
         end
  end.

Definition node_id (x : node) : option nat :=
  match x with
  | Text _ => None
  | Tag i _ _ _ => Some i
  end.

(** [tag.replace_with_children()] for the tag whose identity is [i], seen
    from a node [n] of the tree that holds it: the nodes that stand where
    [n] stood.  The tag itself gives way to its current contents. *)
Fixpoint unwrap (i : nat) (n : node) : list node :=
  match n with
  | Text _ => [n]
  | Tag j name attrs ch =>
      if Nat.eqb j i then ch
      else [Tag j name attrs (flat_map (unwrap i) ch)]
  end.

(** The identities of the [b] tags that [article.find_all('b')] returns. *)
Definition bold_tags (contents : list node) : list nat :=
  omap node_id (find_all (has_name "b") contents).

(** Lines 117-118: the result list is computed once, then every tag of it
    is unwrapped in the tree as it stands at that moment. *)
Definition unwrap_each (ids : list nat) (contents : list node) : list node :=
  fold_left (fun t i => flat_map (unwrap i) t) ids contents.

Definition clean_bold (article : node) : node :=
  match article with
  | Text _ => article
  | Tag i name attrs ch => Tag i name attrs (unwrap_each (bold_tags ch) ch)
  end.

(** What the loop amounts to: every [b] element replaced by its (cleaned)
    contents. *)
Fixpoint strip_b (n : node) : list node :=
  match n with
  | Text _ => [n]
  | Tag j name attrs ch =>
      if String.eqb name "b" then flat_map strip_b ch
      else [Tag j name attrs (flat_map strip_b ch)]
  end.

(** Splice out every tag whose identity is in [ids]. *)
Fixpoint unwrap_set (ids : list nat) (n : node) : list node :=
  match n with
  | Text _ => [n]
  | Tag j name attrs ch =>
      if existsb (Nat.eqb j) ids then flat_map (unwrap_set ids) ch
      else [Tag j name attrs (flat_map (unwrap_set ids) ch)]
  end.

(** The set [ids] holds the identity of a tag exactly when the tag is a
    [b]. *)
Definition marks_bold (ids : list nat) (y : node) : Prop :=
  forall j, node_id y = Some j ->
            existsb (Nat.eqb j) ids = has_name "b" y.

(** The identities of all tags of a forest, in document order. *)
Definition tag_ids (l : list node) : list nat := omap node_id (preorder l).

(** The text of a forest: its text nodes in document order. *)
Fixpoint text_of (n : node) : string :=
  match n with
  | Text s => s
  | Tag _ _ _ ch => String.concat "" (map text_of ch)
  end.

(** *** [str(tag)] *)

(** The "minimal" formatter on text: [&], [<] and [>] become entities. *)
Fixpoint substitute_xml (s : string) : string :=
  match s with
  | EmptyString => EmptyString
  | String c s' =>
      (if Ascii.eqb c "&" then "&amp;"
       else if Ascii.eqb c "<" then "&lt;"
       else if Ascii.eqb c ">" then "&gt;"
       else String c EmptyString) +:+ substitute_xml s'
  end.

(** [quoted_attribute_value]: double quotes, single quotes when the value
    holds a double quote, [&quot;] when it holds both. *)
Fixpoint quote_escape (s : string) : string :=
  match s with
  | EmptyString => EmptyString
  | String c s' =>
      (if Ascii.eqb c (ascii_of_nat 34) then "&quot;"
       else String c EmptyString) +:+ quote_escape s'
  end.

Definition dquote : string := String (ascii_of_nat 34) EmptyString.

Definition quoted_attribute_value (v : string) : string :=
  if Url.has_char (ascii_of_nat 34) v then
    if Url.has_char "'" v then dquote +:+ quote_escape v +:+ dquote
    else "'" +:+ v +:+ "'"
  else dquote +:+ v +:+ dquote.

Definition attribute_string (attrs : list (string * string)) : string :=
  String.concat ""
    (map (fun kv => " " +:+ fst kv +:+ "=" +:+
                    quoted_attribute_value (substitute_xml (snd kv))) attrs).

(** The void elements of the HTML tree builder. *)
Definition empty_element_tags : list string :=
  ["area"; "base"; "br"; "col"; "embed"; "hr"; "img"; "input"; "keygen";
   "link"; "menuitem"; "meta"; "param"; "source"; "track"; "wbr";
   "basefont"; "bgsound"; "command"; "frame"; "image"; "isindex";
   "nextid"; "spacer"].

Definition is_empty_element (name : string) (ch : list node) : bool :=
  match ch with
  | [] => existsb (String.eqb name) empty_element_tags
  | _ => false
  end.

(** [str(tag)] ([Tag.decode] without pretty printing) for trees made of
    elements and text. *)
Fixpoint str_node (n : node) : string :=
  match n with
  | Text s => substitute_xml s
  | Tag _ name attrs ch =>
      if is_empty_element name ch
      then "<" +:+ name +:+ attribute_string attrs +:+ "/>"
      else "<" +:+ name +:+ attribute_string attrs +:+ ">"
           +:+ String.concat "" (map str_node ch)
           +:+ "</" +:+ name +:+ ">"
  end.

End Html.

(* ===================================================================== *)
(** ** The article loop (lines 108-138) *)
(* ===================================================================== *)

Module Articles.
Import Py St Html.

Section Loop.

(** See [Url.check_netloc]. *)
Variable strict_netloc_refuses : string -> bool.

(** [BeautifulSoup(html, "html.parser")]: the top-level nodes of the
    parsed document.  The parser accepts any text. *)
Variable parse_html : string -> list node.

(** [MicrodataExtractor().extract(text)]: the list of items found. *)
Variable extract : string -> res (list value).

(** Lines 117-135 up to the [append]: the row built for one article.  The
    elements of [articles] are nodes of one tree: cleaning an article also
    cleans the articles inside it, and their own turn then finds no [b]
    left, so that each markup is that of the article cleaned on its own. *)
Definition article_row (entry : St.entry) (article : node) : res row :=
  let article_text := str_node (clean_bold article) in
  article_data ← extract article_text;
  item ← item0 article_data;
  properties ← getitem item "properties";
  google_url ← getitem properties "url";
  url ← Url.resolve_value strict_netloc_refuses google_url;
  title ← getitem properties "name";
  teaser ← getitem properties "description";
  publisher_item ← getitem properties "publisher";
  publisher_properties ← getitem publisher_item "properties";
  publisher ← getitem publisher_properties "name";
  Ok (Row (e_date entry) (e_message_id entry) url title publisher teaser).

(** Lines 111-135, the body of [for article in articles]. *)
Definition article_body (entry : St.entry) (article : node)
    (st : state) : result :=
  match article_row entry article with
  | Ok r => Done (append_article r st)
  | Raise e => Crashed e st
  end.

(** Line 110. *)
Definition articles_of (entry : St.entry) : list node :=
  find_all is_article (parse_html (e_html entry)).

(** Lines 109-135, the body of [for entry in messages_parsed]. *)
Definition entry_body (entry : St.entry) (st : state) : result :=
  for_each (article_body entry) (articles_of entry) st.

(** Lines 108-135. *)
Definition extract_articles (st : state) : result :=
  for_each entry_body (messages_parsed st) st.

(** Lines 137-138. *)
Definition report (st : state) : result :=
  Done (print (ExtractedArticles (length (article_list st))) st).

(** The article blocks of a list of entries in the order in which the
    two loops meet them, each with its entry. *)
Definition blocks (entries : list St.entry) : list (St.entry * node) :=
  flat_map (fun e => map (pair e) (articles_of e)) entries.

Definition block_row (b : St.entry * node) : res row :=
  article_row (fst b) (snd b).

End Loop.

End Articles.

(* ===================================================================== *)
(** ** The whole script *)
(* ===================================================================== *)

Module Script.
Import Py St.

(** How the file system answers the output block (lines 141-147).  The
    rows go to the file through buffers that are emptied as they fill up
    and when the [with] block closes the file, so that a failure may show
    at [open], while [writerows] runs, or at the close; [k] is the number
    of rows that had reached the file by then. *)
Inductive disk : Type :=
| WritesAll
| OpenFails
| WriteFails (k : nat)
| CloseFails (k : nat).

(** Lines 141-147.  [IOError] raised inside the [try] is caught and
    reported.  [open(..., 'w')] truncates the file as soon as it
    succeeds. *)
Definition output_stage (d : disk) (st : state) : result :=
  match d with
  | OpenFails => Done (print OutputError st)
  | WriteFails k =>
      Done (print OutputError
              (set_output (Written (firstn k (article_list st))) st))
  | CloseFails k =>
      Done (print OutputError
              (set_output (Written (firstn k (article_list st)))
                 (print AllOutput st)))
  | WritesAll =>
      Done (print AllOutput (set_output (Written (article_list st)) st))
  end.

Section Run.

Variable parsedate_tz : option string -> option DateFormat.date_tuple.
Variable strict_netloc_refuses : string -> bool.
Variable parse_html : string -> list Html.node.
Variable extract : string -> res (list value).

(** Lines 58-101: reading the archive. *)
Definition read_phase (archive : list (nat * Mbox.message)) : result :=
  Mbox.read_messages parsedate_tz archive initial
  >>> Mbox.report >>> Mbox.close_stage.

(** Lines 108-138: extracting the articles. *)
Definition article_phase (st : state) : result :=
  Articles.extract_articles strict_netloc_refuses parse_html extract st
  >>> Articles.report.

(** Lines 41-149. *)
Definition run (archive : list (nat * Mbox.message)) (d : disk) : result :=
  read_phase archive >>> article_phase >>> output_stage d.

End Run.

End Script.

(* ===================================================================== *)
(** ** A small archive *)
(* ===================================================================== *)

Module Sample.
Import Py St Mbox Html.

(** A date parser that knows one header. *)
Definition parsedate (h : option string) : option DateFormat.date_tuple :=
  match h with
  | Some "Tue, 05 Mar 2024 10:00:00 +0000" =>
      Some (DateFormat.DateTuple 2024 3 5)
  | _ => None
  end.

Definition good_date : option string :=
  Some "Tue, 05 Mar 2024 10:00:00 +0000".

(** A message whose body holds two HTML parts. *)
Definition two_html (d : option string) (id : option string)
    (h1 h2 : string) : message :=
  Message [] d id
    (Multipart "multipart/mixed"
       [Leaf "text/html" (Some h1); Leaf "text/html" (Some h2)]).

(** The usual digest: a plain text and an HTML alternative. *)
Definition digest (d : option string) (id : option string)
    (txt html : string) : message :=
  Message [] d id
    (Multipart "multipart/alternative"
       [Leaf "text/plain" (Some txt); Leaf "text/html" (Some html)]).

(** A digest body with two article rows; the title of the first has a
    bold word. *)
Definition two_articles_html : string :=
  "<table><tr itemscope itemtype=http://schema.org/Article><td>"
  +:+ "<b>AI</b>-powered search</td></tr>"
  +:+ "<tr itemscope itemtype=http://schema.org/Article><td>"
  +:+ "Second story</td></tr></table>".

Definition article_attrs : list (string * string) :=
  [("itemscope", ""); ("itemtype", "http://schema.org/Article")].

Definition first_article : node :=
  Tag 2 "tr" article_attrs
    [Tag 3 "td" [] [Tag 4 "b" [] [Text "AI"]; Text "-powered search"]].

Definition second_article : node :=
  Tag 5 "tr" article_attrs [Tag 6 "td" [] [Text "Second story"]].

(** An HTML parser that knows this one document. *)
Definition parse_html (html : string) : list node :=
  if String.eqb html two_articles_html
  then [Tag 1 "table" [] [first_article; second_article]]
  else [].

Definition item (url title teaser publisher : string) : value :=
  VDict {[ "type" := VStr "http://schema.org/Article";
           "properties" :=
             VDict {[ "url" := VStr url;
                      "name" := VStr title;
                      "description" := VStr teaser;
                      "publisher" :=
                        VDict {[ "type" :=
                                   VStr "http://schema.org/Organization";
                                 "properties" :=
                                   VDict {[ "name" := VStr publisher ]} ]}
                   ]} ]}.

(** An extractor that finds one item in every text. *)
Definition extract (text : string) : res (list value) :=
  Ok [item "https://www.google.com/url?rct=j&url=https://news.example/a"
           (if contains "AI-powered" text then "AI-powered search"
            else "Second story")
           "teaser" "Example News"].

(** An extractor that finds nothing in the second article. *)
Definition extract_first_only (text : string) : res (list value) :=
  if contains "Second" text then Ok [] else extract text.

(** An archive with the usual digest. *)
Definition archive : list (nat * message) :=
  [(0, digest good_date (Some "<1@alerts>") "plain" two_articles_html)].

End Sample.

(* ===================================================================== *)
(** ** Start of the script (lines 16-20 and 46-54) *)
(* ===================================================================== *)

Module Startup.
Import Py.

(** The elements of [sys.version_info] and of the tuples it is compared
    with: integers and strings. *)
Inductive pyobj : Type :=
| PInt (n : Z)
| PStr (s : string).

(** [x == y]: objects of different types are different. *)
Definition obj_eqb (x y : pyobj) : bool :=
  match x, y with
  | PInt a, PInt b => Z.eqb a b
  | PStr a, PStr b => String.eqb a b
  | _, _ => false
  end.

(** [x < y] and [x > y]: an integer and a string cannot be ordered. *)
Definition obj_lt (x y : pyobj) : res bool :=
  match x, y with
  | PInt a, PInt b => Ok (Z.ltb a b)
  | PStr a, PStr b => Ok (String.ltb a b)
  | _, _ => Raise TypeError
  end.

Definition obj_gt (x y : pyobj) : res bool := obj_lt y x.

(** [a < b] on tuples: the first pair of different elements decides; when
    there is none the shorter tuple is the smaller. *)
Fixpoint tuple_lt (a b : list pyobj) : res bool :=
  match a, b with
  | [], [] => Ok false
  | [], _ :: _ => Ok true
  | _ :: _, [] => Ok false
  | x :: a', y :: b' => if obj_eqb x y then tuple_lt a' b' else obj_lt x y
  end.

Fixpoint tuple_gt (a b : list pyobj) : res bool :=
  match a, b with
  | [], [] => Ok false
  | [], _ :: _ => Ok false
  | _ :: _, [] => Ok true
  | x :: a', y :: b' => if obj_eqb x y then tuple_gt a' b' else obj_gt x y
  end.

(** [sys.version_info]: major, minor, micro, release level, serial. *)
Definition version_info (major minor micro : Z) (releaselevel : string)
    (serial : Z) : list pyobj :=
  [PInt major; PInt minor; PInt micro; PStr releaselevel; PInt serial].

(** How the start of the script ends: it goes on, it leaves through
    [sys.exit] with a message, or it dies with an uncaught exception. *)
Inductive ending : Type :=
| Proceed
| SystemExit (message : string)
| Uncaught (e : exn).

(** [sys.exit] called with the arguments [args]: it takes at most one. *)
Definition sys_exit (args : list string) : ending :=
  match args with
  | [] => SystemExit EmptyString
  | [message] => SystemExit message
  | _ => Uncaught TypeError
  end.

Definition too_old : string :=
  "You need to use a version of Python 3 earlier than Python 3.12.".

Definition too_new : string :=
  "Use Python 3.11 or earlier to avoid an issue with 3.12 and extruct.".

(** Lines 17-20. *)
Definition version_check (v : list pyobj) : ending :=
  match tuple_gt v [PInt 2; PInt 7] with
  | Raise e => Uncaught e
  | Ok false => sys_exit [too_old]
  | Ok true =>
      match tuple_lt v [PInt 3; PInt 12] with
      | Raise e => Uncaught e
      | Ok false => sys_exit [too_new]
      | Ok true => Proceed
      end
  end.

Definition missing_file : string :=
  "The mailbox file doesn't exist at the given location:".

Definition unreadable_file : string := "The mailbox file cannot be read:".

(** Lines 49-52: [isfile] is [os.path.isfile(args.mbox_file)], [readable]
    is [os.access(args.mbox_file, os.R_OK)]; both calls of [sys.exit] have
    two arguments. *)
Definition preflight (mbox_file : string) (isfile readable : bool) : ending :=
  if negb isfile then sys_exit [missing_file; mbox_file]
  else if negb readable then sys_exit [unreadable_file; mbox_file]
  else Proceed.

(** Lines 16-52, the command line being given: the version check, then
    the checks of the mailbox file. *)
Definition startup (v : list pyobj) (mbox_file : string)
    (isfile readable : bool) : ending :=
  match version_check v with
  | Proceed => preflight mbox_file isfile readable
  | e => e
  end.

(** The whole program: the start, and when it goes on, line 54 opens the
    mailbox and the phases run. *)
Inductive outcome : Type :=
| Stopped (e : ending)
| Ran (r : St.result).

Section Main.

Variable parsedate_tz : option string -> option DateFormat.date_tuple.
Variable strict_netloc_refuses : string -> bool.
Variable parse_html : string -> list Html.node.
Variable extract : string -> res (list value).

Definition main (v : list pyobj) (mbox_file : string)
    (isfile readable : bool) (archive : list (nat * Mbox.message))
    (d : Script.disk) : outcome :=
  match startup v mbox_file isfile readable with
  | Proceed =>
      Ran (Script.run parsedate_tz strict_netloc_refuses parse_html extract
             archive d)
  | e => Stopped e
  end.

End Main.

End Startup.

(* ===================================================================== *)
(** ** What the message loop keeps of a message *)
(* ===================================================================== *)

Module Account.
Import Py St DateFormat Mbox.

(** The texts of the HTML parts of a message that decode, in the order of
    the walk. *)
Definition html_texts (m : message) : list string :=
  omap (fun p => match payload_text p with
                 | Ok s => Some s
                 | Raise _ => None
                 end) (html_parts m).

Definition decodes (p : part) : bool :=
  match payload_text p with
  | Ok _ => true
  | Raise _ => false
  end.

(** A message that the loop gets through: it has defects (its parts are
    then not looked at), or each of its HTML parts decodes. *)
Definition passes (m : message) : bool :=
  match defects m with
  | [] => forallb decodes (html_parts m)
  | _ => true
  end.

Definition is_skip (l : line) : bool :=
  match l with
  | SkipDefects _ _ => true
  | SkipDate _ _ => true
  | _ => false
  end.

(** The number of "Skipping message" lines on the console. *)
Definition skips (st : state) : nat :=
  length (List.filter is_skip (stdout st)).

(** The defective counter less the number of diagnostics printed. *)
Definition unreported (st : state) : Z :=
  Z.of_nat (messages_defective st) - Z.of_nat (skips st).

(** The texts that the HTML parts of a list of parts give. *)
Definition texts (parts : list part) : list string :=
  omap (fun p => match payload_text p with
                 | Ok s => Some s
                 | Raise _ => None
                 end) (List.filter is_html parts).

Section Entries.

Variable parsedate_tz : option string -> option date_tuple.

(** The elements that a message adds to [messages_parsed]. *)
Definition entries_of (m : message) : list entry :=
  match defects m with
  | [] =>
      match parsedate_tz (date m) with
      | Some t => map (Entry (date_mdcy t) (message_id m)) (html_texts m)
      | None => []
      end
  | _ => []
  end.

Definition entries_of_archive (archive : list (nat * message))
    : list entry :=
  flat_map (fun km => entries_of (snd km)) archive.

(** What a message adds to [messages_defective]: one when it has defects,
    one per HTML part when its date does not parse. *)
Definition skipped_count (m : message) : nat :=
  match defects m with
  | [] =>
      match parsedate_tz (date m) with
      | Some _ => 0
      | None => length (html_parts m)
      end
  | _ => 1
  end.

End Entries.

(** The variables of the message loop, and the number of diagnostics. *)
Definition message_parts (st : state) : list entry * nat * nat * nat :=
  (messages_parsed st, messages_total st, messages_defective st, skips st).

End Account.

(* ===================================================================== *)
(** ** The CSV writer (lines 142-144) *)
(* ===================================================================== *)

(** [csv.writer(article_file, delimiter='\t')] with the other settings of
    the default dialect: the double quote as quote character, doubled
    inside a quoted field, minimal quoting, line terminator CR LF.  The file is opened with
    [newline=''], so that the terminator is written as it is. *)
Module Csv.
Import Py St.

Definition tab : ascii := ascii_of_nat 9.
Definition lf : ascii := ascii_of_nat 10.
Definition cr : ascii := ascii_of_nat 13.
Definition quotechar : ascii := ascii_of_nat 34.

(** The characters that make the writer quote a field: the delimiter, the
    quote character and the characters of the line terminator. *)
Definition special (c : ascii) : bool :=
  Ascii.eqb c tab || Ascii.eqb c quotechar
  || Ascii.eqb c cr || Ascii.eqb c lf.

Fixpoint has_special (s : string) : bool :=
  match s with
  | EmptyString => false
  | String c s' => special c || has_special s'
  end.

(** The field with every quote character doubled. *)
Fixpoint double_quotes (s : string) : string :=
  match s with
  | EmptyString => EmptyString
  | String c s' =>
      if Ascii.eqb c quotechar
      then String c (String c (double_quotes s'))
      else String c (double_quotes s')
  end.

(** One field as written. *)
Definition write_field (s : string) : string :=
  if has_special s
  then String quotechar (double_quotes s +:+ String quotechar EmptyString)
  else s.

Fixpoint join_fields (fields : list string) : string :=
  match fields with
  | [] => EmptyString
  | [f] => write_field f
  | f :: r => write_field f +:+ String tab (join_fields r)
  end.

Definition lineterminator : string := String cr (String lf EmptyString).

(** [writer.writerow(fields)] for fields that are strings: a record made
    of one empty field is written as a pair of quotes. *)
Definition writerow (fields : list string) : string :=
  match fields with
  | [EmptyString] =>
      String quotechar (String quotechar lineterminator)
  | _ => join_fields fields +:+ lineterminator
  end.

(** [writer.writerows(rows)]. *)
Definition writerows (rows : list (list string)) : string :=
  String.concat "" (map writerow rows).

Section Fields.

(** [str(x)] for an object that is neither a string nor [None]. *)
Variable py_str : value -> string.

(** The text of a field: a string is itself, [None] is the empty string,
    anything else goes through [str]. *)
Definition field_text (v : value) : string :=
  match v with
  | VStr s => s
  | VNone => EmptyString
  | _ => py_str v
  end.

(** The six fields of a row of [article_list]. *)
Definition row_fields (r : row) : list string :=
  [r_date r;
   match r_message_id r with Some s => s | None => EmptyString end;
   r_url r;
   field_text (r_title r);
   field_text (r_publisher r);
   field_text (r_teaser r)].

(** The text of the output file after [writerows(article_list)]. *)
Definition file_text (rows : list row) : string :=
  writerows (map row_fields rows).

End Fields.

(** *** A reader for the records of the writer *)

(** Where the reader is in a field: at its start, in a plain field, in a
    quoted field, after a quote inside a quoted field, or after the CR
    that ends a record. *)
Inductive mode : Type :=
| AtStart
| Plain
| Quoted
| QuoteSeen
| CrSeen.

(** The reader: its mode, the characters of the field read so far (last
    first), the fields of the record read so far (last first) and the
    records read (last first). *)
Record reader : Type := Reader {
  r_mode : mode;
  r_field : string;
  r_fields : list string;
  r_records : list (list string)
}.

Definition end_field (r : reader) (m : mode) : reader :=
  Reader m EmptyString (String.rev (r_field r) :: r_fields r) (r_records r).

Definition add_char (r : reader) (m : mode) (c : ascii) : reader :=
  Reader m (String c (r_field r)) (r_fields r) (r_records r).

Definition step (r : reader) (c : ascii) : option reader :=
  match r_mode r with
  | AtStart =>
      if Ascii.eqb c quotechar
      then Some (Reader Quoted (r_field r) (r_fields r) (r_records r))
      else if Ascii.eqb c tab then Some (end_field r AtStart)
      else if Ascii.eqb c cr then Some (end_field r CrSeen)
      else if Ascii.eqb c lf then None
      else Some (add_char r Plain c)
  | Plain =>
      if Ascii.eqb c quotechar then None
      else if Ascii.eqb c tab then Some (end_field r AtStart)
      else if Ascii.eqb c cr then Some (end_field r CrSeen)
      else if Ascii.eqb c lf then None
      else Some (add_char r Plain c)
  | Quoted =>
      if Ascii.eqb c quotechar
      then Some (Reader QuoteSeen (r_field r) (r_fields r) (r_records r))
      else Some (add_char r Quoted c)
  | QuoteSeen =>
      if Ascii.eqb c quotechar then Some (add_char r Quoted c)
      else if Ascii.eqb c tab then Some (end_field r AtStart)
      else if Ascii.eqb c cr then Some (end_field r CrSeen)
      else None
  | CrSeen =>
      if Ascii.eqb c lf
      then Some (Reader AtStart EmptyString []
                        (rev (r_fields r) :: r_records r))
      else None
  end.

(** The characters of [s] put in front of [acc], last first. *)
Fixpoint rev_onto (s acc : string) : string :=
  match s with
  | EmptyString => acc
  | String c s' => rev_onto s' (String c acc)
  end.

Fixpoint read_from (r : reader) (s : string) : option reader :=
  match s with
  | EmptyString => Some r
  | String c s' =>
      match step r c with
      | Some r' => read_from r' s'
      | None => None
      end
  end.

(** The records of a text, when it is made of whole records. *)
Definition read (s : string) : option (list (list string)) :=
  match read_from (Reader AtStart EmptyString [] []) s with
  | Some (Reader AtStart EmptyString [] records) => Some (rev records)
  | _ => None
  end.

End Csv.

(* ===================================================================== *)
(** ** Queries and outlines *)
(* ===================================================================== *)

Module Query.

(** The fields of a query joined with [&]. *)
Fixpoint join (fields : list string) : string :=
  match fields with
  | [] => EmptyString
  | [f] => f
  | f :: r => f +:+ String "&" (join r)
  end.

(** A field that can stand in a query as it is: no [&], no [#], no tab
    and no line break. *)
Definition field_ok (f : string) : bool :=
  Url.all_chars Url.query_char f && negb (Url.has_char "&" f).

End Query.

Module Outline.
Import Html.

(** What a tree is made of besides its [b] tags: its texts, and its other
    tags with their identity, name and attributes, in document order. *)
Inductive piece : Type :=
| PText (s : string)
| PTag (id : nat) (name : string) (attrs : list (string * string)).

Fixpoint outline (n : node) : list piece :=
  match n with
  | Text s => [PText s]
  | Tag i name attrs ch =>
      (if String.eqb name "b" then [] else [PTag i name attrs])
      ++ flat_map outline ch
  end.

End Outline.

(* ===================================================================== *)
(** * Properties *)
(* ===================================================================== *)

(** ** The date code *)

Module DateFacts.
Import DateFormat.

Local Open Scope Z_scope.

(** A property checked on the [n] numbers from [lo] on holds on that
    interval of [Z]. *)
Lemma checked_on_interval (P : Z -> bool) (lo n : Z) :
  forallb (fun k => P (lo + Z.of_nat k)) (seq 0 (Z.to_nat n)) = true ->
  forall z, lo <= z < lo + n -> P z = true.
Proof.
  intros Hall z Hz.
  rewrite forallb_forall in Hall.
  replace z with (lo + Z.of_nat (Z.to_nat (z - lo))) by lia.
  apply Hall, in_seq. lia.
Qed.

Lemma format_two_digits (n : Z) :
  0 <= n <= 99 -> format_0gt2 n = two_digits n.
Proof.
  intros Hn.
  apply String.eqb_eq.
  apply (checked_on_interval
           (fun z => String.eqb (format_0gt2 z) (two_digits z)) 0 100).
  - vm_compute. reflexivity.
  - lia.
Qed.

Lemma format_four_digits (n : Z) :
  1000 <= n <= 9999 -> format_0gt2 n = four_digits n.
Proof.
  intros Hn.
  apply String.eqb_eq.
  apply (checked_on_interval
           (fun z => String.eqb (format_0gt2 z) (four_digits z)) 1000 9000).
  - vm_compute. reflexivity.
  - lia.
Qed.

Lemma digit_char_is_digit (d : Z) :
  0 <= d <= 9 -> is_digit (digit_char d) = true.
Proof.
  intros Hd.
  apply (checked_on_interval (fun z => is_digit (digit_char z)) 0 10).
  - vm_compute. reflexivity.
  - lia.
Qed.

Lemma two_digits_all_digits (n : Z) :
  0 <= n <= 99 -> all_digits (two_digits n) = true.
Proof.
  intros Hn. unfold two_digits. cbn [all_digits].
  rewrite !digit_char_is_digit; [reflexivity | ..];
    Z.div_mod_to_equations; lia.
Qed.

Lemma four_digits_all_digits (n : Z) :
  1000 <= n <= 9999 -> all_digits (four_digits n) = true.
Proof.
  intros Hn. unfold four_digits. cbn [all_digits].
  rewrite !digit_char_is_digit; [reflexivity | ..];
    Z.div_mod_to_equations; lia.
Qed.

Lemma all_digits_app (s t : string) :
  all_digits (s +:+ t) = all_digits s && all_digits t.
Proof.
  induction s as [|c s IH]; simpl; [reflexivity|].
  rewrite IH. apply andb_assoc.
Qed.




End DateFacts.

(** ** Loops over the state *)

Module LoopFacts.
Import Py St.

Lemma for_each_app {A} (body : A -> state -> result) (l1 l2 : list A)
    (st : state) :
  for_each body (l1 ++ l2) st = for_each body l1 st >>> for_each body l2.
Proof.
  revert st. induction l1 as [|x l1 IH]; intros st; simpl; [reflexivity|].
  destruct (body x st) as [st'|e st']; simpl; [apply IH | reflexivity].
Qed.

(** A quantity that no pass of the body changes is not changed by the
    loop, whether it completes or dies. *)
Lemma for_each_frame {A B} (f : state -> B) (body : A -> state -> result)
    (l : list A) :
  (forall x st, f (final_state (body x st)) = f st) ->
  forall st, f (final_state (for_each body l st)) = f st.
Proof.
  intros Hbody. induction l as [|x l IH]; intros st; simpl; [reflexivity|].
  specialize (Hbody x st).
  destruct (body x st) as [st'|e st']; simpl in *.
  - rewrite IH. exact Hbody.
  - exact Hbody.
Qed.

(** A relation between the state before and after that every completed
    pass extends is extended by the completed loop. *)
Lemma for_each_done_inv {A} (R : list A -> state -> state -> Prop)
    (body : A -> state -> result) :
  (forall st, R [] st st) ->
  (forall x l st st' st'',
      body x st = Done st' -> R l st' st'' -> R (x :: l) st st'') ->
  forall l st st', for_each body l st = Done st' -> R l st st'.
Proof.
  intros Hnil Hcons. induction l as [|x l IH]; intros st st' H; simpl in H.
  - injection H as <-. apply Hnil.
  - destruct (body x st) as [st1|e st1] eqn:E; simpl in H; [|discriminate].
    eapply Hcons; [exact E | apply IH, H].
Qed.

Lemma and_then_done (r : result) (k : state -> result) (st : state) :
  r >>> k = Done st -> exists st1, r = Done st1 /\ k st1 = Done st.
Proof.
  destruct r as [st1|e st1]; simpl; [|discriminate].
  intros H. exists st1. split; [reflexivity | exact H].
Qed.

End LoopFacts.

(** ** The message loop *)

Module MboxFacts.
Import Py St DateFormat Mbox LoopFacts.

Section Loop.

Variable parsedate_tz : option string -> option date_tuple.

(** One pass over a part leaves the total alone; an HTML part adds one
    to [messages_defective] or one element to [messages_parsed], any
    other part adds nothing. *)
Lemma part_body_counts (key : nat) (m : message) (p : part)
    (st st' : state) :
  part_body parsedate_tz key m p st = Done st' ->
  messages_total st' = messages_total st
  /\ messages_defective st' + length (messages_parsed st')
     = messages_defective st + length (messages_parsed st)
       + (if is_html p then 1 else 0).
Proof.
  unfold part_body. destruct (is_html p).
  - destruct (payload_text p) as [s|e]; [|discriminate].
    destruct (parsedate_tz (date m)) as [t|]; intros [= <-]; simpl.
    + rewrite length_app. simpl. lia.
    + lia.
  - intros [= <-]. lia.
Qed.

Lemma part_loop_counts (key : nat) (m : message) (parts : list part)
    (st st' : state) :
  for_each (part_body parsedate_tz key m) parts st = Done st' ->
  messages_total st' = messages_total st
  /\ messages_defective st' + length (messages_parsed st')
     = messages_defective st + length (messages_parsed st)
       + length (List.filter is_html parts).
Proof.
  revert st st'.
  apply (for_each_done_inv
           (fun l st st' =>
              messages_total st' = messages_total st
              /\ messages_defective st' + length (messages_parsed st')
                 = messages_defective st + length (messages_parsed st)
                   + length (List.filter is_html l))).
  - intros st. simpl. lia.
  - intros p l st st1 st2 Hp [Ht Hc].
    apply part_body_counts in Hp as [Ht1 Hc1]. simpl.
    destruct (is_html p); simpl; lia.
Qed.

Lemma message_body_counts (km : nat * message) (st st' : state) :
  message_body parsedate_tz km st = Done st' ->
  messages_total st' = messages_total st + 1
  /\ messages_defective st' + length (messages_parsed st')
     = messages_defective st + length (messages_parsed st)
       + weight (snd km).
Proof.
  destruct km as [key m]. unfold message_body, weight. simpl.
  destruct (defects m) as [|d ds].
  - intros H. apply part_loop_counts in H. simpl in H.
    unfold html_parts. lia.
  - intros [= <-]. simpl. lia.
Qed.

(** The accounts of the message loop: every message is counted once in
    the total; the defective counter and the parsed list grow together
    by the weights of the messages. *)
Lemma read_messages_counts (archive : list (nat * message))
    (st st' : state) :
  read_messages parsedate_tz archive st = Done st' ->
  messages_total st' = messages_total st + length archive
  /\ messages_defective st' + length (messages_parsed st')
     = messages_defective st + length (messages_parsed st)
       + list_sum (map (fun km => weight (snd km)) archive).
Proof.
  revert st st'.
  apply (for_each_done_inv
           (fun l st st' =>
              messages_total st' = messages_total st + length l
              /\ messages_defective st' + length (messages_parsed st')
                 = messages_defective st + length (messages_parsed st)
                   + list_sum (map (fun km => weight (snd km)) l))).
  - intros st. simpl. lia.
  - intros km l st st1 st2 Hm [Ht Hc].
    apply message_body_counts in Hm as [Ht1 Hc1]. simpl. lia.
Qed.

(** X14.  When no message without defects has two HTML parts, the
    counters of a completed message loop balance once the messages
    without an HTML part are counted: total = defective + messages
    without HTML + parsed. *)
Lemma counters_balance_single_html (archive : list (nat * message))
    (st : state) :
  Forall (fun km => defects (snd km) = [] ->
                    length (html_parts (snd km)) <= 1) archive ->
  read_messages parsedate_tz archive initial = Done st ->
  messages_total st
  = messages_defective st + count_no_html archive
    + length (messages_parsed st).
Proof.
  intros Hone Hrun.
  apply read_messages_counts in Hrun as [Ht Hc]. simpl in Ht, Hc.
  assert (E : list_sum (map (fun km => weight (snd km)) archive)
              + count_no_html archive = length archive).
  { clear Ht Hc. unfold count_no_html.
    induction Hone as [|[key m] l Hm _ IH]; [reflexivity|].
    cbn [map list_sum List.filter length snd] in *.
    unfold weight at 1. unfold no_html at 1. unfold html_parts in *.
    destruct (defects m) as [|d ds].
    - specialize (Hm eq_refl).
      destruct (List.filter is_html (walk (body m))) as [|p ps] eqn:F.
      + assert (N : forallb (fun p => negb (is_html p)) (walk (body m))
                    = true).
        { apply forallb_forall. intros p Hp.
          destruct (is_html p) eqn:Hh; [|reflexivity].
          assert (Hin : In p (List.filter is_html (walk (body m))))
            by (apply filter_In; auto).
          rewrite F in Hin. destruct Hin. }
        rewrite N. simpl. lia.
      + assert (N : forallb (fun p => negb (is_html p)) (walk (body m))
                    = false).
        { apply not_true_is_false. intros Hall.
          rewrite forallb_forall in Hall.
          assert (Hin : In p (List.filter is_html (walk (body m))))
            by (rewrite F; left; reflexivity).
          apply filter_In in Hin as [Hin Hh].
          specialize (Hall p Hin). rewrite Hh in Hall. discriminate. }
        rewrite N. simpl in Hm. simpl. lia.
    - simpl. lia. }
  lia.
Qed.

(** Every HTML part of a message whose date parses adds an element of
    its own to [messages_parsed], in the order of the walk. *)
Lemma part_loop_entries (key : nat) (m : message) (t : date_tuple) :
  parsedate_tz (date m) = Some t ->
  forall (parts : list part) (st st' : state),
    for_each (part_body parsedate_tz key m) parts st = Done st' ->
    exists new,
      messages_parsed st' = messages_parsed st ++ new
      /\ Forall2 (fun p e => payload_text p = Ok (e_html e)
                             /\ e_date e = date_mdcy t
                             /\ e_message_id e = message_id m)
                 (List.filter is_html parts) new.
Proof.
  intros Ht.
  apply (for_each_done_inv
           (fun l st st' =>
              exists new,
                messages_parsed st' = messages_parsed st ++ new
                /\ Forall2 (fun p e => payload_text p = Ok (e_html e)
                                       /\ e_date e = date_mdcy t
                                       /\ e_message_id e = message_id m)
                           (List.filter is_html l) new)).
  - intros st. exists []. rewrite app_nil_r. split; [reflexivity|].
    constructor.
  - intros p l st st1 st2 Hp (new & Hnew & Hall).
    unfold part_body in Hp. simpl. destruct (is_html p).
    + destruct (payload_text p) as [s|e] eqn:Hs; [|discriminate].
      rewrite Ht in Hp. injection Hp as <-. simpl in Hnew.
      exists (Entry (date_mdcy t) (message_id m) s :: new). split.
      * rewrite Hnew, <- app_assoc. reflexivity.
      * constructor; [simpl; auto | exact Hall].
    + injection Hp as <-. exists new. auto.
Qed.

(** A message without HTML part is counted and leaves the rest of the
    state alone. *)
Lemma message_without_html (key : nat) (m : message) (st : state) :
  defects m = [] ->
  html_parts m = [] ->
  message_body parsedate_tz (key, m) st = Done (incr_total st).
Proof.
  intros Hd Hh. unfold message_body. rewrite Hd.
  unfold html_parts in Hh.
  generalize (incr_total st). intros st1.
  induction (walk (body m)) as [|p l IH]; [reflexivity|].
  simpl in *. unfold part_body at 1.
  destruct (is_html p); [discriminate|]. simpl. apply IH, Hh.
Qed.

(** C2 at a message with two HTML parts: the loop over the parts goes on
    after the first HTML part, so that the second part is taken as well
    and the message gives two elements of [messages_parsed]. *)
Theorem two_html_parts_two_entries (key : nat) (d id : option string)
    (t : date_tuple) (h1 h2 : string) (st : state) :
  parsedate_tz d = Some t ->
  message_body parsedate_tz (key, Sample.two_html d id h1 h2) st
  = Done (append_parsed (Entry (date_mdcy t) id h2)
            (append_parsed (Entry (date_mdcy t) id h1) (incr_total st))).
Proof.
  intros Ht. unfold message_body, Sample.two_html. simpl.
  unfold part_body. simpl. rewrite Ht. reflexivity.
Qed.

(** C1 at an archive of one message with two HTML parts: one message in
    total, none defective, none without HTML, and two elements in
    [messages_parsed] when the date parses; two "defective" messages
    out of one when it does not. *)
Theorem two_html_parts_break_balance (d id : option string)
    (h1 h2 : string) :
  let archive := [(0, Sample.two_html d id h1 h2)] in
  count_no_html archive = 0
  /\ (forall t, parsedate_tz d = Some t ->
        exists st,
          read_messages parsedate_tz archive initial = Done st
          /\ messages_total st = 1
          /\ messages_defective st = 0
          /\ length (messages_parsed st) = 2
          /\ messages_total st
             <> messages_defective st + count_no_html archive
                + length (messages_parsed st))
  /\ (parsedate_tz d = None ->
        exists st,
          read_messages parsedate_tz archive initial = Done st
          /\ messages_total st = 1
          /\ messages_defective st = 2
          /\ length (messages_parsed st) = 0).
Proof.
  simpl. split; [reflexivity|]. split.
  - intros t Ht. eexists. split.
    + unfold read_messages, Sample.two_html. simpl.
      unfold part_body. simpl. rewrite Ht. reflexivity.
    + simpl. repeat split; try reflexivity. unfold count_no_html. simpl.
      lia.
  - intros Hn. eexists. split.
    + unfold read_messages, Sample.two_html. simpl.
      unfold part_body. simpl. rewrite Hn. reflexivity.
    + simpl. repeat split; reflexivity.
Qed.

End Loop.

Lemma two_html_parts_two_entries_witness :
  Sample.parsedate Sample.good_date = Some (DateTuple 2024 3 5)
  /\ messages_parsed
       (final_state
          (message_body Sample.parsedate
             (0, Sample.two_html Sample.good_date (Some "<1@x>")
                   "<p>one</p>" "<p>two</p>") initial))
     = [Entry "03052024" (Some "<1@x>") "<p>one</p>";
        Entry "03052024" (Some "<1@x>") "<p>two</p>"].
Proof.
  split; [reflexivity|].
  rewrite (two_html_parts_two_entries Sample.parsedate 0 Sample.good_date
             (Some "<1@x>") (DateTuple 2024 3 5) "<p>one</p>" "<p>two</p>"
             initial eq_refl).
  reflexivity.
Defined.

Lemma two_html_parts_break_balance_witness :
  exists st,
    read_messages Sample.parsedate
      [(0, Sample.two_html Sample.good_date None "a" "b")] initial = Done st
    /\ messages_total st = 1
    /\ messages_defective st = 0
    /\ length (messages_parsed st) = 2.
Proof.
  destruct (two_html_parts_break_balance Sample.parsedate Sample.good_date
              None "a" "b") as (_ & H & _).
  destruct (H (DateTuple 2024 3 5) eq_refl) as (st & Hrun & Ht & Hd & Hp & _).
  exists st. auto.
Defined.

(** The sample archive: one message, one HTML part, one element. *)
Lemma counters_balance_single_html_witness :
  let st :=
    final_state (read_messages Sample.parsedate Sample.archive initial) in
  messages_total st
  = messages_defective st + count_no_html Sample.archive
    + length (messages_parsed st).
Proof.
  apply (counters_balance_single_html Sample.parsedate Sample.archive).
  - repeat constructor.
  - reflexivity.
Defined.

End MboxFacts.

(** ** URL parsing *)

Module UrlFacts.
Import Py Url.

(** *** Strings *)

Lemma break_at_app (p : ascii -> bool) (s : string) (c : ascii)
    (t : string) :
  all_chars (fun a => negb (p a)) s = true ->
  p c = true ->
  break_at p (s +:+ String c t) = (s, Some (String c t)).
Proof.
  intros Hs Hc. induction s as [|a s IH]; simpl in *.
  - rewrite Hc. reflexivity.
  - apply andb_prop in Hs as [Ha Hs].
    destruct (p a); [discriminate|]. rewrite (IH Hs). reflexivity.
Qed.

Lemma break_at_none (p : ascii -> bool) (s : string) :
  all_chars (fun a => negb (p a)) s = true ->
  break_at p s = (s, None).
Proof.
  intros Hs. induction s as [|a s IH]; simpl in *; [reflexivity|].
  apply andb_prop in Hs as [Ha Hs].
  destruct (p a); [discriminate|]. rewrite (IH Hs). reflexivity.
Qed.

Lemma has_char_false (c : ascii) (s : string) :
  has_char c s = false <->
  all_chars (fun a => negb (Ascii.eqb c a)) s = true.
Proof.
  induction s as [|a s IH]; simpl; [tauto|].
  rewrite orb_false_iff, andb_true_iff, IH, negb_true_iff.
  rewrite (Ascii.eqb_sym a c). tauto.
Qed.

Lemma split_once_app (c : ascii) (s t : string) :
  has_char c s = false ->
  split_once c (s +:+ String c t) = Some (s, t).
Proof.
  intros Hs. unfold split_once.
  rewrite break_at_app; [reflexivity | | apply Ascii.eqb_refl].
  apply has_char_false, Hs.
Qed.

Lemma split_once_none (c : ascii) (s : string) :
  has_char c s = false -> split_once c s = None.
Proof.
  intros Hs. unfold split_once.
  rewrite break_at_none; [reflexivity|]. apply has_char_false, Hs.
Qed.

Lemma all_chars_impl (p q : ascii -> bool) (s : string) :
  (forall c, p c = true -> q c = true) ->
  all_chars p s = true -> all_chars q s = true.
Proof.
  intros Hpq. induction s as [|a s IH]; simpl; [reflexivity|].
  intros H. apply andb_prop in H as [Ha Hs].
  rewrite (Hpq a Ha), (IH Hs). reflexivity.
Qed.

(** *** The dictionary of [parse_qs] *)

Lemma values_of_app (k : string) (l1 l2 : list (string * string)) :
  values_of k (l1 ++ l2) = values_of k l1 ++ values_of k l2.
Proof.
  unfold values_of. rewrite List.filter_app, map_app. reflexivity.
Qed.

Lemma values_of_absent (k : string) (l : list (string * string)) :
  Forall (fun p => fst p <> k) l -> values_of k l = [].
Proof.
  unfold values_of. induction 1 as [|[n v] l Hn _ IH]; [reflexivity|].
  simpl in *. apply String.eqb_neq in Hn. rewrite Hn. exact IH.
Qed.

(** The list stored under [k] after the loop of [parse_qs]: the list
    stored before, followed by the values of [k] among the pairs. *)
Lemma foldl_add_pair_lookup (k : string) (pairs : list (string * string)) :
  forall d : gmap string (list string),
    foldl add_pair d pairs !! k
    = match d !! k, values_of k pairs with
      | Some l, vs => Some (l ++ vs)
      | None, [] => None
      | None, vs => Some vs
      end.
Proof.
  induction pairs as [|[n v] pairs IH]; intros d.
  - simpl. destruct (d !! k); [rewrite app_nil_r|]; reflexivity.
  - cbn [foldl]. rewrite IH. unfold values_of, add_pair. simpl.
    destruct (String.eqb n k) eqn:E.
    + apply String.eqb_eq in E. subst n.
      destruct (d !! k) as [l|].
      * rewrite lookup_insert_eq, <- app_assoc. reflexivity.
      * rewrite lookup_insert_eq. reflexivity.
    + apply String.eqb_neq in E.
      destruct (d !! n) as [l|];
        rewrite lookup_insert_ne by exact E; reflexivity.
Qed.

Lemma parse_qs_lookup (k qs : string) :
  parse_qs qs !! k
  = match values_of k (parse_qsl qs) with
    | [] => None
    | vs => Some vs
    end.
Proof.
  unfold parse_qs. rewrite foldl_add_pair_lookup, lookup_empty.
  reflexivity.
Qed.

(** No list of the dictionary is empty, so that [[0]] cannot fail. *)
Lemma parse_qs_get_first (k qs : string) :
  item0 (dict_get (parse_qs qs) k [EmptyString])
  = Ok (hd EmptyString (values_of k (parse_qsl qs))).
Proof.
  unfold dict_get. rewrite parse_qs_lookup.
  destruct (values_of k (parse_qsl qs)); reflexivity.
Qed.

Lemma parse_qsl_fields (qs : string) :
  parse_qsl qs = flat_map parse_field (split_on "&" qs).
Proof.
  destruct qs; reflexivity.
Qed.

Lemma parse_field_pair (n v : string) :
  has_char "=" n = false ->
  v <> EmptyString ->
  parse_field (n +:+ String "=" v) = [(unquote_plus n, unquote_plus v)].
Proof.
  intros Hn Hv. unfold parse_field.
  rewrite (split_once_app "=" n v Hn).
  destruct (n +:+ String "=" v) eqn:E.
  - destruct n; discriminate.
  - destruct v; [contradiction | reflexivity].
Qed.

(** *** The query of a plain URL *)

#[local] Arguments Ascii.eqb : simpl never.

Lemma plain_char_spec (c : ascii) :
  plain_char c = true ->
  is_ascii c = true /\ c <> "?"%char /\ c <> "#"%char
  /\ c <> "["%char /\ c <> "]"%char.
Proof.
  unfold plain_char. intros H.
  apply andb_prop in H as [Ha H]. apply negb_true_iff in H.
  repeat (apply orb_false_iff in H as [H ?]).
  repeat split; [exact Ha | | | | ]; intros ->; discriminate.
Qed.

Lemma plain_no_char (d : ascii) (s : string) :
  all_chars plain_char s = true ->
  plain_char d = false ->
  has_char d s = false.
Proof.
  intros Hs Hd. apply has_char_false.
  eapply all_chars_impl; [|exact Hs].
  intros a Ha. apply negb_true_iff.
  destruct (Ascii.eqb d a) eqn:E; [|reflexivity].
  apply Ascii.eqb_eq in E. subst a. congruence.
Qed.

Lemma lstrip_app (p : ascii -> bool) (s : string) (c : ascii) (t : string) :
  p c = false ->
  exists s', lstrip p (s +:+ String c t) = s' +:+ String c t
             /\ forall q, all_chars q s = true -> all_chars q s' = true.
Proof.
  intros Hc. induction s as [|a s IH]; simpl.
  - rewrite Hc. exists EmptyString. auto.
  - destruct (p a).
    + destruct IH as (s' & E & Hq). exists s'. split; [exact E|].
      intros q H. apply andb_prop in H as [_ H]. auto.
    + exists (String a s). auto.
Qed.

Lemma remove_chars_id (p : ascii -> bool) (s : string) :
  all_chars (fun a => negb (p a)) s = true -> remove_chars p s = s.
Proof.
  induction s as [|a s IH]; simpl; [reflexivity|].
  intros H. apply andb_prop in H as [Ha Hs].
  destruct (p a); [discriminate|]. rewrite (IH Hs). reflexivity.
Qed.

Lemma remove_chars_app (p : ascii -> bool) (s t : string) :
  remove_chars p (s +:+ t) = remove_chars p s +:+ remove_chars p t.
Proof.
  induction s as [|a s IH]; simpl; [reflexivity|].
  rewrite IH. destruct (p a); reflexivity.
Qed.

Lemma remove_chars_keeps (p q : ascii -> bool) (s : string) :
  all_chars q s = true -> all_chars q (remove_chars p s) = true.
Proof.
  induction s as [|a s IH]; simpl; [reflexivity|].
  intros H. apply andb_prop in H as [Ha Hs].
  destruct (p a); simpl; [auto | rewrite Ha; auto].
Qed.

Lemma all_chars_app (p : ascii -> bool) (s t : string) :
  all_chars p (s +:+ t) = all_chars p s && all_chars p t.
Proof.
  induction s as [|a s IH]; simpl; [reflexivity|].
  rewrite IH. apply andb_assoc.
Qed.

(** Where the first [:] of [b ? q] is: inside [b], or not before the
    [?]. *)
Lemma break_colon (b q : string) :
  has_char "?" b = false ->
  (exists x y, b = x +:+ String ":" y
               /\ break_at (Ascii.eqb ":") (b +:+ String "?" q)
                  = (x, Some (String ":" (y +:+ String "?" q))))
  \/ (exists z r, break_at (Ascii.eqb ":") (b +:+ String "?" q)
                  = (b +:+ String "?" z, r)).
Proof.
  induction b as [|a b IH]; simpl; intros Hb.
  - right. destruct (break_at (Ascii.eqb ":") q) as [z r]. eauto.
  - apply orb_false_iff in Hb as [Ha Hb].
    destruct (Ascii.eqb ":" a) eqn:E.
    + apply Ascii.eqb_eq in E. subst a. left.
      exists EmptyString, b. split; reflexivity.
    + destruct (IH Hb) as [(x & y & -> & Hbr) | (z & r & Hbr)].
      * left. exists (String a x), y. rewrite Hbr.
        split; reflexivity.
      * right. exists z, r. rewrite Hbr. reflexivity.
Qed.

Lemma scheme_char_not_question (s z : string) :
  all_chars scheme_char (s +:+ String "?" z) = false.
Proof.
  induction s as [|a s IH]; simpl; [reflexivity|].
  rewrite IH. apply andb_false_r.
Qed.

(** Cutting the scheme off leaves a plain prefix, the [?] and the
    query. *)
Lemma strip_scheme_plain (b q : string) :
  all_chars plain_char b = true ->
  exists b', strip_scheme (b +:+ String "?" q) = b' +:+ String "?" q
             /\ all_chars plain_char b' = true.
Proof.
  intros Hb.
  assert (Hq : has_char "?" b = false)
    by (apply plain_no_char; [exact Hb | reflexivity]).
  unfold strip_scheme, split_once.
  destruct (break_colon b q Hq) as [(x & y & E & Hbr) | (z & r & Hbr)];
    rewrite Hbr.
  - subst b. rewrite all_chars_app in Hb. apply andb_prop in Hb as [Hx Hy].
    simpl in Hy.
    destruct x as [|c0 x0].
    + exists (String ":" y). split; [reflexivity|].
      simpl. exact Hy.
    + destruct (is_alpha c0 && all_chars scheme_char (String c0 x0)).
      * exists y. auto.
      * exists (String c0 x0 +:+ String ":" y). split; [reflexivity|].
        rewrite all_chars_app. simpl in *. rewrite Hx, Hy. reflexivity.
  - exists b. split; [|exact Hb].
    destruct r as [[|c r]|]; try reflexivity.
    destruct (b +:+ String "?" z) as [|c0 x0] eqn:E; [reflexivity|].
    rewrite <- E, scheme_char_not_question, Bool.andb_false_r.
    reflexivity.
Qed.

Lemma after_slashes_plain (b q : string) :
  all_chars plain_char b = true ->
  after_slashes (b +:+ String "?" q) = None
  \/ exists b', after_slashes (b +:+ String "?" q)
                = Some (b' +:+ String "?" q)
                /\ all_chars plain_char b' = true.
Proof.
  intros Hb. destruct b as [|c1 [|c2 b']]; simpl.
  - left. destruct q; reflexivity.
  - left. change (Ascii.eqb "?" "/") with false.
    rewrite Bool.andb_false_r. reflexivity.
  - destruct (Ascii.eqb c1 "/" && Ascii.eqb c2 "/"); [right | left; auto].
    exists b'. split; [reflexivity|].
    simpl in Hb. apply andb_prop in Hb as [_ Hb].
    apply andb_prop in Hb as [_ Hb]. exact Hb.
Qed.

(** The authority of [b ? q] ends inside [b] or at the [?]. *)
Lemma break_netloc (b q : string) :
  all_chars plain_char b = true ->
  exists n r, break_at netloc_delim (b +:+ String "?" q)
              = (n, Some (r +:+ String "?" q))
              /\ all_chars plain_char n = true
              /\ all_chars plain_char r = true.
Proof.
  induction b as [|a b IH]; simpl; intros Hb.
  - exists EmptyString, EmptyString. auto.
  - apply andb_prop in Hb as [Ha Hb].
    destruct (netloc_delim a).
    + exists EmptyString, (String a b). simpl. rewrite Ha, Hb. auto.
    + destruct (IH Hb) as (n & r & -> & Hn & Hr).
      exists (String a n), r. simpl. rewrite Ha, Hn. auto.
Qed.

Lemma check_netloc_plain (refuses : string -> bool) (n : string) :
  all_chars plain_char n = true -> check_netloc refuses n = Ok tt.
Proof.
  intros Hn. unfold check_netloc.
  rewrite (plain_no_char "[" n Hn eq_refl), (plain_no_char "]" n Hn eq_refl).
  assert (Ha : all_chars is_ascii n = true).
  { eapply all_chars_impl; [|exact Hn].
    intros c Hc. apply plain_char_spec in Hc. tauto. }
  rewrite Ha. reflexivity.
Qed.

(** [urlsplit] accepts a URL made of a plain prefix, a [?] and a query
    without [#], tab or line break, and its query is that query. *)
Lemma urlsplit_plain_query (refuses : string -> bool) (b q : string) :
  all_chars plain_char b = true ->
  all_chars query_char q = true ->
  exists parsed,
    urlsplit refuses (b +:+ String "?" q) = Ok parsed /\ query parsed = q.
Proof.
  intros Hb Hq. unfold urlsplit.
  destruct (lstrip_app c0_or_space b "?" q eq_refl) as (b1 & -> & H1).
  specialize (H1 _ Hb).
  rewrite remove_chars_app. simpl.
  rewrite (remove_chars_id unsafe_byte q).
  2:{ eapply all_chars_impl; [|exact Hq]. intros c Hc.
      unfold query_char in Hc. apply andb_prop in Hc. tauto. }
  pose proof (remove_chars_keeps unsafe_byte _ _ H1) as H2.
  destruct (strip_scheme_plain (remove_chars unsafe_byte b1) q H2)
    as (b3 & -> & H3).
  assert (Hno : has_char "#" q = false).
  { apply has_char_false. eapply all_chars_impl; [|exact Hq].
    intros c Hc. unfold query_char in Hc. apply andb_prop in Hc as [Hc _].
    rewrite Ascii.eqb_sym. exact Hc. }
  assert (Tail : forall r n,
             all_chars plain_char r = true ->
             exists parsed,
               (let (url, frag) :=
                  match split_once "#" (r +:+ String "?" q) with
                  | Some (u, f) => (u, f)
                  | None => (r +:+ String "?" q, EmptyString)
                  end in
                let (url0, q0) :=
                  match split_once "?" url with
                  | Some (u, q0) => (u, q0)
                  | None => (url, EmptyString)
                  end in
                Ok (SplitResult n url0 q0 frag)) = Ok parsed
               /\ query parsed = q).
  { intros r n Hr.
    rewrite split_once_none.
    2:{ apply has_char_false. rewrite all_chars_app. simpl.
        apply has_char_false in Hno. rewrite Hno.
        rewrite (proj1 (has_char_false "#" r)
                   (plain_no_char "#" r Hr eq_refl)).
        reflexivity. }
    rewrite split_once_app by (apply plain_no_char; [exact Hr | reflexivity]).
    eexists. split; reflexivity. }
  destruct (after_slashes_plain b3 q H3) as [-> | (b4 & -> & H4)].
  - simpl. apply (Tail b3 EmptyString H3).
  - unfold splitnetloc.
    destruct (break_netloc b4 q H4) as (n & r & -> & Hn & Hr).
    rewrite (check_netloc_plain refuses n Hn). simpl.
    apply (Tail r n Hr).
Qed.

Section Resolve.

Variable strict_netloc_refuses : string -> bool.

(** When the parser accepts the URL, the resolver returns the first
    value that the query gives to [url], and the empty string when
    there is none. *)
Lemma resolve_first_value (raw : string) (parsed : split_result) :
  urlparse strict_netloc_refuses raw = Ok parsed ->
  resolve strict_netloc_refuses raw
  = Ok (hd EmptyString (values_of "url" (parse_qsl (query parsed)))).
Proof.
  intros Hp. unfold resolve. rewrite Hp. simpl.
  apply parse_qs_get_first.
Qed.

(** When the parser refuses the URL, so does the resolver. *)
Lemma resolve_refused (raw : string) (e : exn) :
  urlparse strict_netloc_refuses raw = Raise e ->
  resolve strict_netloc_refuses raw = Raise e.
Proof.
  intros Hp. unfold resolve. rewrite Hp. reflexivity.
Qed.

(** C10, as the code has it.  Among the fields of the query, the first
    one that gives [url] a value that is not empty decides the result:
    fields before it that lack the [=] or have an empty value count for
    nothing, and whatever follows it is ignored. *)
Theorem first_nonblank_url_wins (raw : string) (parsed : split_result)
    (before : list string) (n v : string) (after : list string) :
  urlparse strict_netloc_refuses raw = Ok parsed ->
  split_on "&" (query parsed)
  = before ++ (n +:+ String "=" v) :: after ->
  has_char "=" n = false ->
  unquote_plus n = "url" ->
  v <> EmptyString ->
  Forall (fun f => Forall (fun p => fst p <> "url") (parse_field f))
         before ->
  resolve strict_netloc_refuses raw = Ok (unquote_plus v).
Proof.
  intros Hp Hsplit Hn Hname Hv Hbefore.
  rewrite (resolve_first_value raw parsed Hp).
  rewrite parse_qsl_fields, Hsplit, flat_map_app. cbn [flat_map].
  rewrite (parse_field_pair n v Hn Hv), Hname.
  rewrite values_of_app.
  rewrite (values_of_absent "url" (flat_map parse_field before)).
  - reflexivity.
  - clear Hsplit.
    induction Hbefore as [|f fs Hf _ IH]; simpl; [constructor|].
    apply Forall_app. split; [exact Hf | exact IH].
Qed.

End Resolve.

Lemma first_nonblank_url_wins_witness :
  resolve lenient "http://r.example/?a=1&url=&url=b%20c&url=d"
  = Ok "b c".
Proof.
  apply (first_nonblank_url_wins lenient
           "http://r.example/?a=1&url=&url=b%20c&url=d"
           (SplitResult "r.example" "/" "a=1&url=&url=b%20c&url=d" "")
           ["a=1"; "url="] "url" "b%20c" ["url=d"]).
  - reflexivity.
  - reflexivity.
  - reflexivity.
  - reflexivity.
  - discriminate.
  - repeat constructor. simpl. discriminate.
Defined.

(** The first field named [url] has an empty value; [parse_qs] drops it,
    and the value of the second one is returned. *)
Lemma blank_first_url_is_skipped :
  resolve lenient "http://r.example/?url=&url=b" = Ok "b"
  /\ resolve lenient "http://r.example/?url=&url=b" <> Ok "".
Proof.
  split; [vm_compute; reflexivity | vm_compute; discriminate].
Qed.

(** An authority with a lone bracket: [urlparse] raises, whatever the
    query holds. *)
Lemma lone_bracket_is_refused :
  resolve lenient "http://[?url=a" = Raise ValueError
  /\ resolve lenient "http://[?url=a" <> Ok "a".
Proof.
  split; [vm_compute; reflexivity | vm_compute; discriminate].
Qed.

End UrlFacts.

(** ** The HTML tree *)

Module HtmlFacts.
Import Html.

(** Induction on a tree, with the hypothesis on all children. *)
Lemma node_induction (P : node -> Prop) :
  (forall s, P (Text s)) ->
  (forall i name attrs ch, Forall P ch -> P (Tag i name attrs ch)) ->
  forall x, P x.
Proof.
  intros text_case tag_case. fix IH 1. intros [s|i name attrs ch].
  - apply text_case.
  - apply tag_case.
    induction ch as [|y r IHr]; constructor; [apply IH | exact IHr].
Qed.

Lemma preorder_cons (x : node) (l : list node) :
  preorder (x :: l) = x :: descendants x ++ preorder l.
Proof. reflexivity. Qed.

Lemma descendants_tag (i : nat) (name : string)
    (attrs : list (string * string)) (ch : list node) :
  descendants (Tag i name attrs ch) = preorder ch.
Proof. reflexivity. Qed.

Lemma preorder_app (l k : list node) :
  preorder (l ++ k) = preorder l ++ preorder k.
Proof. apply flat_map_app. Qed.

Lemma tag_ids_cons_tag (i : nat) (name : string)
    (attrs : list (string * string)) (ch l : list node) :
  tag_ids (Tag i name attrs ch :: l) = i :: tag_ids ch ++ tag_ids l.
Proof.
  unfold tag_ids. rewrite preorder_cons, descendants_tag. simpl.
  rewrite omap_app. reflexivity.
Qed.

Lemma tag_ids_cons_text (s : string) (l : list node) :
  tag_ids (Text s :: l) = tag_ids l.
Proof. reflexivity. Qed.

Lemma existsb_eqb (j : nat) (ids : list nat) :
  existsb (Nat.eqb j) ids = true <-> j ∈ ids.
Proof.
  split.
  - intros H. apply existsb_exists in H as (x & Hx & E).
    apply Nat.eqb_eq in E. subst x. apply list_elem_of_In, Hx.
  - intros Hj. apply existsb_exists. exists j.
    split; [apply list_elem_of_In, Hj | apply Nat.eqb_refl].
Qed.

(** *** The loop of lines 117-118 against [strip_b] *)

Lemma unwrap_set_nil (l : list node) : flat_map (unwrap_set []) l = l.
Proof.
  induction l as [|x l IH]; [reflexivity|]. simpl. rewrite IH.
  clear IH. revert x.
  assert (H : forall x, unwrap_set [] x = [x]); [|intros x; rewrite H; auto].
  apply (node_induction (fun x => unwrap_set [] x = [x])).
  - reflexivity.
  - intros i name attrs ch Hch. simpl. f_equal. f_equal.
    induction Hch as [|y r Hy _ IH]; [reflexivity|].
    simpl. rewrite Hy, IH. reflexivity.
Qed.

Lemma tag_ids_cons (x : node) (l : list node) :
  tag_ids (x :: l) = tag_ids [x] ++ tag_ids l.
Proof.
  unfold tag_ids. change (x :: l) with ([x] ++ l).
  rewrite preorder_app, omap_app. reflexivity.
Qed.

Lemma tag_ids_tag (i : nat) (name : string)
    (attrs : list (string * string)) (ch : list node) :
  tag_ids [Tag i name attrs ch] = i :: tag_ids ch.
Proof. rewrite tag_ids_cons_tag, app_nil_r. reflexivity. Qed.

Lemma absent_forest (i : nat) (l : list node) :
  i ∉ tag_ids l -> Forall (fun x => i ∉ tag_ids [x]) l.
Proof.
  induction l as [|x l IH]; intros Hi; constructor.
  - intros Hin. apply Hi. rewrite tag_ids_cons. apply elem_of_app. auto.
  - apply IH. intros Hin. apply Hi. rewrite tag_ids_cons.
    apply elem_of_app. auto.
Qed.

Lemma NoDup_forest (l : list node) :
  NoDup (tag_ids l) -> Forall (fun x => NoDup (tag_ids [x])) l.
Proof.
  induction l as [|x l IH]; intros Hnd; constructor;
    rewrite tag_ids_cons in Hnd; apply NoDup_app in Hnd as (H1 & _ & H2);
    auto.
Qed.

(** Two functions that agree on the trees of a forest, each under a
    condition that the tree meets, agree on the forest. *)
Lemma flat_map_agree (Q : node -> Prop) (f g : node -> list node)
    (l : list node) :
  Forall (fun x => Q x -> f x = g x) l ->
  Forall Q l ->
  flat_map f l = flat_map g l.
Proof.
  induction 1 as [|x l Hx _ IH]; intros HQ; [reflexivity|].
  apply Forall_cons in HQ as [Hq HQ]. simpl.
  rewrite (Hx Hq), (IH HQ). reflexivity.
Qed.

(** An identity that is not in the tree may be added to the set. *)
Lemma unwrap_set_absent_node (i : nat) (ids : list nat) (x : node) :
  i ∉ tag_ids [x] -> unwrap_set (i :: ids) x = unwrap_set ids x.
Proof.
  revert x.
  apply (node_induction
           (fun x => i ∉ tag_ids [x] ->
                     unwrap_set (i :: ids) x = unwrap_set ids x)).
  - reflexivity.
  - intros j name attrs ch Hch Hi. rewrite tag_ids_tag in Hi.
    apply not_elem_of_cons in Hi as [Hij Hi].
    cbn [unwrap_set existsb].
    rewrite (flat_map_agree _ _ _ ch Hch (absent_forest i ch Hi)).
    destruct (Nat.eqb j i) eqn:Eji; [|reflexivity].
    apply Nat.eqb_eq in Eji. congruence.
Qed.

Lemma unwrap_set_absent (i : nat) (ids : list nat) (l : list node) :
  i ∉ tag_ids l ->
  flat_map (unwrap_set (i :: ids)) l = flat_map (unwrap_set ids) l.
Proof.
  intros Hi.
  apply (flat_map_agree (fun x => i ∉ tag_ids [x])).
  - apply Forall_forall. intros x _. apply unwrap_set_absent_node.
  - apply absent_forest, Hi.
Qed.

Lemma flat_map_flat_map {A B C} (f : A -> list B) (g : B -> list C)
    (l : list A) :
  flat_map g (flat_map f l) = flat_map (fun x => flat_map g (f x)) l.
Proof.
  induction l as [|x l IH]; [reflexivity|].
  simpl. rewrite flat_map_app, IH. reflexivity.
Qed.

(** Unwrapping the tag [i] after the tags of [ids] is unwrapping all of
    them. *)
Lemma unwrap_after_set_node (i : nat) (ids : list nat) (x : node) :
  NoDup (tag_ids [x]) ->
  flat_map (unwrap i) (unwrap_set ids x) = unwrap_set (i :: ids) x.
Proof.
  revert x.
  apply (node_induction
           (fun x => NoDup (tag_ids [x]) ->
                     flat_map (unwrap i) (unwrap_set ids x)
                     = unwrap_set (i :: ids) x)).
  - reflexivity.
  - intros j name attrs ch Hch Hnd. rewrite tag_ids_tag in Hnd.
    apply NoDup_cons in Hnd as [Hj Hnd].
    assert (E : flat_map (unwrap i) (flat_map (unwrap_set ids) ch)
                = flat_map (unwrap_set (i :: ids)) ch).
    { rewrite flat_map_flat_map.
      apply (flat_map_agree _ _ _ ch Hch (NoDup_forest ch Hnd)). }
    cbn [unwrap_set existsb].
    destruct (existsb (Nat.eqb j) ids).
    + rewrite orb_true_r. exact E.
    + rewrite orb_false_r. cbn [flat_map unwrap]. rewrite app_nil_r.
      destruct (Nat.eqb j i) eqn:Eji.
      * apply Nat.eqb_eq in Eji. subst j.
        symmetry. apply unwrap_set_absent, Hj.
      * rewrite E. reflexivity.
Qed.

Lemma unwrap_after_set (i : nat) (ids : list nat) (l : list node) :
  NoDup (tag_ids l) ->
  flat_map (unwrap i) (flat_map (unwrap_set ids) l)
  = flat_map (unwrap_set (i :: ids)) l.
Proof.
  intros Hnd. rewrite flat_map_flat_map.
  apply (flat_map_agree (fun x => NoDup (tag_ids [x]))).
  - apply Forall_forall. intros x _. apply unwrap_after_set_node.
  - apply NoDup_forest, Hnd.
Qed.

(** The loop unwraps exactly the tags of its list. *)
Lemma unwrap_each_set (ids : list nat) (l : list node) :
  NoDup (tag_ids l) ->
  unwrap_each ids l = flat_map (unwrap_set (rev ids)) l.
Proof.
  intros Hnd. unfold unwrap_each.
  rewrite <- (unwrap_set_nil l) at 1.
  rewrite <- (app_nil_r (rev ids)).
  generalize (@nil nat) as acc.
  induction ids as [|i ids IH]; intros acc; [reflexivity|].
  cbn [fold_left rev]. rewrite unwrap_after_set by exact Hnd.
  rewrite IH, <- app_assoc. reflexivity.
Qed.

Lemma preorder_forest (Q : node -> Prop) (l : list node) :
  (forall y, y ∈ preorder l -> Q y) ->
  Forall (fun x => forall y, y ∈ preorder [x] -> Q y) l.
Proof.
  induction l as [|x l IH]; intros H; constructor.
  - intros y Hy. apply H. change (x :: l) with ([x] ++ l).
    rewrite preorder_app. apply elem_of_app. auto.
  - apply IH. intros y Hy. apply H. change (x :: l) with ([x] ++ l).
    rewrite preorder_app. apply elem_of_app. auto.
Qed.

Lemma unwrap_set_strip_node (ids : list nat) (x : node) :
  (forall y, y ∈ preorder [x] -> marks_bold ids y) ->
  unwrap_set ids x = strip_b x.
Proof.
  revert x.
  apply (node_induction
           (fun x => (forall y, y ∈ preorder [x] -> marks_bold ids y) ->
                     unwrap_set ids x = strip_b x)).
  - reflexivity.
  - intros j name attrs ch Hch Hm.
    assert (Hj : existsb (Nat.eqb j) ids = String.eqb name "b").
    { apply (Hm (Tag j name attrs ch)); [|reflexivity].
      rewrite preorder_cons. left. }
    assert (E : flat_map (unwrap_set ids) ch = flat_map strip_b ch).
    { apply (flat_map_agree _ _ _ ch Hch). apply preorder_forest.
      intros y Hy. apply Hm. rewrite preorder_cons, descendants_tag.
      right. apply elem_of_app. auto. }
    cbn [unwrap_set strip_b]. rewrite Hj, E. reflexivity.
Qed.

Lemma unwrap_set_strip (ids : list nat) (l : list node) :
  (forall y, y ∈ preorder l -> marks_bold ids y) ->
  flat_map (unwrap_set ids) l = flat_map strip_b l.
Proof.
  intros H.
  apply (flat_map_agree
           (fun x => forall y, y ∈ preorder [x] -> marks_bold ids y)).
  - apply Forall_forall. intros x _. apply unwrap_set_strip_node.
  - apply preorder_forest, H.
Qed.

(** Two elements of a list that a partial function with distinct values
    sends to the same value are the same. *)
Lemma omap_NoDup_inj {A B} (f : A -> option B) (l : list A) (x y : A)
    (b : B) :
  NoDup (omap f l) ->
  x ∈ l -> y ∈ l -> f x = Some b -> f y = Some b -> x = y.
Proof.
  induction l as [|a l IH]; intros Hnd Hx Hy Fx Fy.
  - inversion Hx.
  - simpl in Hnd.
    assert (Hin : forall z, z ∈ l -> f z = Some b -> b ∈ omap f l).
    { intros z Hz Fz. apply list_elem_of_omap. eauto. }
    apply elem_of_cons in Hx as [->|Hx];
      apply elem_of_cons in Hy as [->|Hy].
    + reflexivity.
    + rewrite Fx in Hnd. apply NoDup_cons in Hnd as [Hb _].
      destruct Hb. eauto.
    + rewrite Fy in Hnd. apply NoDup_cons in Hnd as [Hb _].
      destruct Hb. eauto.
    + apply IH; auto.
      destruct (f a); [apply NoDup_cons in Hnd as [_ Hnd]|]; exact Hnd.
Qed.

Lemma elem_of_rev {A} (x : A) (l : list A) : x ∈ rev l <-> x ∈ l.
Proof.
  rewrite !list_elem_of_In. symmetry. apply in_rev.
Qed.

(** When the tags of the forest have distinct identities, the list of
    [find_all('b')] marks the [b] tags and no other. *)
Lemma bold_tags_mark (l : list node) :
  NoDup (tag_ids l) ->
  forall y, y ∈ preorder l -> marks_bold (rev (bold_tags l)) y.
Proof.
  intros Hnd y Hy j Hj.
  destruct (has_name "b" y) eqn:Hb.
  - apply existsb_eqb, elem_of_rev. unfold bold_tags.
    apply list_elem_of_omap. exists y. split; [|exact Hj].
    unfold find_all. apply list_elem_of_In, filter_In.
    split; [apply list_elem_of_In, Hy | exact Hb].
  - apply not_true_is_false. intros H.
    apply existsb_eqb in H. apply (proj1 (elem_of_rev _ _)) in H.
    unfold bold_tags in H.
    apply list_elem_of_omap in H as (z & Hz & Fz).
    unfold find_all in Hz. apply list_elem_of_In, filter_In in Hz as [Hz Bz].
    apply list_elem_of_In in Hz.
    assert (z = y) by (eapply (omap_NoDup_inj node_id); eauto).
    subst z. congruence.
Qed.

(** The loop of lines 117-118 replaces every [b] element, nested ones
    included, by its contents. *)
Lemma clean_bold_strip (i : nat) (name : string)
    (attrs : list (string * string)) (ch : list node) :
  NoDup (tag_ids ch) ->
  clean_bold (Tag i name attrs ch) = Tag i name attrs (flat_map strip_b ch).
Proof.
  intros Hnd. unfold clean_bold.
  rewrite (unwrap_each_set _ _ Hnd).
  rewrite (unwrap_set_strip _ _ (bold_tags_mark ch Hnd)).
  reflexivity.
Qed.

(** *** What [strip_b] leaves *)

Lemma strip_b_no_bold (l : list node) :
  Forall (fun y => has_name "b" y = false) (preorder (flat_map strip_b l)).
Proof.
  assert (H : forall x,
             Forall (fun y => has_name "b" y = false)
                    (preorder (strip_b x))).
  { apply (node_induction
             (fun x => Forall (fun y => has_name "b" y = false)
                              (preorder (strip_b x)))).
    - intros s. repeat constructor.
    - intros j name attrs ch Hch.
      assert (E : Forall (fun y => has_name "b" y = false)
                         (preorder (flat_map strip_b ch))).
      { induction Hch as [|y r Hy _ IH]; [constructor|].
        simpl. rewrite preorder_app. apply Forall_app. auto. }
      cbn [strip_b]. destruct (String.eqb name "b") eqn:Hn; [exact E|].
      rewrite preorder_cons, descendants_tag, app_nil_r.
      constructor; [exact Hn | exact E]. }
  induction l as [|x l IH]; [constructor|].
  simpl. rewrite preorder_app. apply Forall_app. auto.
Qed.

Lemma append_nil_r (s : string) : s +:+ "" = s.
Proof.
  induction s as [|c s IH]; [reflexivity|].
  change (String c (s +:+ "") = String c s). congruence.
Qed.

Lemma append_assoc (s t u : string) : (s +:+ t) +:+ u = s +:+ t +:+ u.
Proof.
  induction s as [|c s IH]; [reflexivity|].
  change (String c ((s +:+ t) +:+ u) = String c (s +:+ t +:+ u)).
  congruence.
Qed.

Lemma concat_cons (x : string) (l : list string) :
  String.concat "" (x :: l) = x +:+ String.concat "" l.
Proof.
  destruct l; simpl; [symmetry; apply append_nil_r | reflexivity].
Qed.

Lemma concat_app (l k : list string) :
  String.concat "" (l ++ k) = String.concat "" l +:+ String.concat "" k.
Proof.
  induction l as [|x l IH]; [reflexivity|].
  rewrite <- app_comm_cons, !concat_cons, IH, append_assoc. reflexivity.
Qed.

(** The text of the forest is unchanged: nothing is put between the text
    before, inside and after a [b] element. *)
Lemma strip_b_text (l : list node) :
  String.concat "" (map text_of (flat_map strip_b l))
  = String.concat "" (map text_of l).
Proof.
  assert (H : forall x,
             String.concat "" (map text_of (strip_b x)) = text_of x).
  { apply (node_induction
             (fun x => String.concat "" (map text_of (strip_b x))
                       = text_of x)).
    - reflexivity.
    - intros j name attrs ch Hch.
      assert (E : String.concat "" (map text_of (flat_map strip_b ch))
                  = String.concat "" (map text_of ch)).
      { induction Hch as [|y r Hy _ IH]; [reflexivity|].
        cbn [flat_map map].
        rewrite map_app, concat_app, Hy, IH, concat_cons.
        reflexivity. }
      cbn [strip_b text_of]. destruct (String.eqb name "b"); [exact E|].
      cbn [map text_of]. rewrite concat_cons, append_nil_r. exact E. }
  induction l as [|x l IH]; [reflexivity|].
  cbn [flat_map map].
  rewrite map_app, concat_app, H, IH, concat_cons. reflexivity.
Qed.

End HtmlFacts.

(** ** The article loop *)

Module ArticlesFacts.
Import Py St Html Articles LoopFacts.

Lemma bind_ok {A B} (m : res A) (k : A -> res B) (b : B) :
  (x ← m; k x) = Ok b -> exists a, m = Ok a /\ k a = Ok b.
Proof.
  destruct m as [a|e]; simpl; [eauto | discriminate].
Qed.

Lemma extend_articles_nil (st : state) : extend_articles [] st = st.
Proof.
  destruct st. unfold extend_articles. simpl. rewrite app_nil_r.
  reflexivity.
Qed.

Lemma extend_articles_cons (r : row) (rows : list row) (st : state) :
  extend_articles rows (append_article r st) = extend_articles (r :: rows) st.
Proof.
  unfold extend_articles, append_article. simpl.
  rewrite <- app_assoc. reflexivity.
Qed.

Lemma for_each_pairs {A B} (body : A -> B -> state -> result) (x : A)
    (ys : list B) (st : state) :
  for_each (fun p => body (fst p) (snd p)) (map (pair x) ys) st
  = for_each (body x) ys st.
Proof.
  revert st. induction ys as [|y ys IH]; intros st; [reflexivity|].
  simpl. destruct (body x y st); simpl; [apply IH | reflexivity].
Qed.

(** Two nested loops are one loop over the pairs. *)
Lemma for_each_nested {A B} (f : A -> list B)
    (body : A -> B -> state -> result) (l : list A) (st : state) :
  for_each (fun x => for_each (body x) (f x)) l st
  = for_each (fun p => body (fst p) (snd p))
             (flat_map (fun x => map (pair x) (f x)) l) st.
Proof.
  revert st. induction l as [|x l IH]; intros st; [reflexivity|].
  cbn [for_each flat_map]. rewrite for_each_app, for_each_pairs.
  destruct (for_each (body x) (f x) st); simpl; [apply IH | reflexivity].
Qed.

Section Loop.

Variable strict_netloc_refuses : string -> bool.
Variable parse_html : string -> list node.
Variable extract : string -> res (list value).

Abbreviation article_row := (article_row strict_netloc_refuses extract).
Abbreviation article_body := (article_body strict_netloc_refuses extract).
Abbreviation articles_of := (articles_of parse_html).
Abbreviation entry_body :=
  (entry_body strict_netloc_refuses parse_html extract).
Abbreviation extract_articles :=
  (extract_articles strict_netloc_refuses parse_html extract).
Abbreviation blocks := (blocks parse_html).
Abbreviation block_row := (block_row strict_netloc_refuses extract).

(** A row carries the date and the message id of its entry. *)
Lemma article_row_inherits (entry : St.entry) (article : node) (r : row) :
  article_row entry article = Ok r ->
  r_date r = e_date entry /\ r_message_id r = e_message_id entry.
Proof.
  unfold Articles.article_row. intros H.
  repeat (apply bind_ok in H as (? & _ & H)).
  injection H as <-. split; reflexivity.
Qed.

(** The loop over blocks whose rows can all be built appends these
    rows. *)
Lemma rows_loop_done {A} (body_of : A -> res row)
    (bs : list A) (rows : list row) (st : state) :
  Forall2 (fun b r => body_of b = Ok r) bs rows ->
  for_each (fun b st => match body_of b with
                        | Ok r => Done (append_article r st)
                        | Raise e => Crashed e st
                        end) bs st
  = Done (extend_articles rows st).
Proof.
  intros H. revert st.
  induction H as [|b r bs rows Hb _ IH]; intros st.
  - simpl. rewrite extend_articles_nil. reflexivity.
  - simpl. rewrite Hb. simpl. rewrite IH, extend_articles_cons.
    reflexivity.
Qed.

(** The loop dies at the first block whose row cannot be built, with
    the rows of the blocks before it and no other. *)
Lemma rows_loop_crash {A} (body_of : A -> res row)
    (pre : list A) (b : A) (post : list A) (rows : list row) (e : exn)
    (st : state) :
  Forall2 (fun b r => body_of b = Ok r) pre rows ->
  body_of b = Raise e ->
  for_each (fun b st => match body_of b with
                        | Ok r => Done (append_article r st)
                        | Raise e => Crashed e st
                        end) (pre ++ b :: post) st
  = Crashed e (extend_articles rows st).
Proof.
  intros Hpre Hb. rewrite for_each_app.
  rewrite (rows_loop_done body_of pre rows st Hpre). simpl.
  rewrite Hb. reflexivity.
Qed.

(** A loop that completes has built a row for every block. *)
Lemma rows_loop_inv {A} (body_of : A -> res row)
    (bs : list A) (st st' : state) :
  for_each (fun b st => match body_of b with
                        | Ok r => Done (append_article r st)
                        | Raise e => Crashed e st
                        end) bs st = Done st' ->
  exists rows, Forall2 (fun b r => body_of b = Ok r) bs rows
               /\ st' = extend_articles rows st.
Proof.
  revert st. induction bs as [|b bs IH]; intros st H.
  - injection H as <-. exists []. split; [constructor|].
    symmetry. apply extend_articles_nil.
  - simpl in H. destruct (body_of b) as [r|e] eqn:Hb; [|discriminate].
    simpl in H. apply IH in H as (rows & Hrows & ->).
    exists (r :: rows). split; [constructor; assumption|].
    apply extend_articles_cons.
Qed.

(** The two loops of lines 108-135 are one loop over the blocks. *)
Lemma extract_articles_blocks (st : state) :
  extract_articles st
  = for_each (fun b st => match block_row b with
                          | Ok r => Done (append_article r st)
                          | Raise e => Crashed e st
                          end) (blocks (messages_parsed st)) st.
Proof.
  unfold Articles.extract_articles, Articles.entry_body, Articles.blocks.
  rewrite (for_each_nested articles_of article_body).
  reflexivity.
Qed.

(** What line 110 finds: the [tr] elements of the document whose
    [itemtype] is the Article URI. *)
Lemma articles_of_spec (entry : St.entry) (x : node) :
  In x (articles_of entry) <->
  In x (preorder (parse_html (e_html entry)))
  /\ exists i attrs ch,
       x = Tag i "tr" attrs ch
       /\ attr "itemtype" attrs = Some article_type.
Proof.
  unfold Articles.articles_of, find_all. rewrite filter_In.
  split; intros [Hin H]; (split; [exact Hin|]).
  - destruct x as [s|i name attrs ch]; [discriminate|].
    simpl in H. apply andb_prop in H as [Hn Ha].
    apply String.eqb_eq in Hn. subst name.
    destruct (attr "itemtype" attrs) as [v|] eqn:Hv; [|discriminate].
    apply String.eqb_eq in Ha. subst v. eauto.
  - destruct H as (i & attrs & ch & -> & Ha). simpl. rewrite Ha.
    reflexivity.
Qed.

(** The row of an article whose item holds every property that the
    script reads. *)
Lemma article_row_ok (entry : St.entry) (article : node)
    (item : value) (rest : list value)
    (props google_url title teaser pub pub_props pub_name : value)
    (url : string) :
  extract (str_node (clean_bold article)) = Ok (item :: rest) ->
  getitem item "properties" = Ok props ->
  getitem props "url" = Ok google_url ->
  Url.resolve_value strict_netloc_refuses google_url = Ok url ->
  getitem props "name" = Ok title ->
  getitem props "description" = Ok teaser ->
  getitem props "publisher" = Ok pub ->
  getitem pub "properties" = Ok pub_props ->
  getitem pub_props "name" = Ok pub_name ->
  article_row entry article
  = Ok (Row (e_date entry) (e_message_id entry) url title pub_name teaser).
Proof.
  intros H1 H2 H3 H4 H5 H6 H7 H8 H9. unfold Articles.article_row.
  rewrite H1. simpl. rewrite H2. simpl. rewrite H3. simpl.
  rewrite H4. simpl. rewrite H5. simpl. rewrite H6. simpl.
  rewrite H7. simpl. rewrite H8. simpl. rewrite H9. reflexivity.
Qed.

(** C5.  When the loop over the article blocks of a parsed message completes,
    it has appended exactly one row for each block that line 110
    found, in the same order; the blocks found are the [tr] elements
    whose [itemtype] is the Article URI; every row carries the date and
    the message id of the message. *)
Theorem one_row_per_article_block (entry : St.entry) (st st' : state) :
  entry_body entry st = Done st' ->
  (forall x, In x (articles_of entry) <->
             In x (preorder (parse_html (e_html entry)))
             /\ exists i attrs ch,
                  x = Tag i "tr" attrs ch
                  /\ attr "itemtype" attrs = Some article_type)
  /\ exists rows,
       article_list st' = article_list st ++ rows
       /\ length rows = length (articles_of entry)
       /\ Forall2 (fun a r => article_row entry a = Ok r)
                  (articles_of entry) rows
       /\ Forall (fun r => r_date r = e_date entry
                           /\ r_message_id r = e_message_id entry) rows.
Proof.
  intros H. split; [apply articles_of_spec|].
  apply (rows_loop_inv (article_row entry)) in H as (rows & Hrows & ->).
  exists rows. split; [reflexivity|]. split.
  - symmetry. apply (Forall2_length _ _ _ Hrows).
  - split; [exact Hrows|].
    clear -Hrows. induction Hrows as [|a r l rows Ha _ IH]; constructor.
    + apply (article_row_inherits _ _ _ Ha).
    + exact IH.
Qed.

End Loop.

(** The digest of the sample archive has two article rows, and gives two
    output rows with its date and its message id. *)
Lemma one_row_per_article_block_witness :
  exists rows,
    length rows = 2
    /\ Forall (fun r => r_date r = "03052024"
                        /\ r_message_id r = Some "<1@alerts>") rows.
Proof.
  pose (entry := Entry "03052024" (Some "<1@alerts>")
                       Sample.two_articles_html).
  destruct (one_row_per_article_block Url.lenient Sample.parse_html
              Sample.extract entry initial
              (final_state (entry_body Url.lenient Sample.parse_html
                              Sample.extract entry initial)) eq_refl)
    as (_ & rows & _ & Hlen & _ & Hall).
  exists rows. split; [exact Hlen | exact Hall].
Defined.

(** C4, as the code has it.  When [urlparse] accepts the URL (as it does
    every URL made of a plain prefix, a [?] and a query), the resolver
    returns the decoded value of the first query field that gives [url]
    a value, and the empty string when no field does; it cannot raise
    then.  With the empty string, the row of the article is built all
    the same, its URL field blank.  The redirect URL of the
    specification resolves to [https://news.example/a]. *)
Theorem resolver_returns_url_parameter (refuses : string -> bool) :
  (forall raw parsed,
      Url.urlparse refuses raw = Ok parsed ->
      Url.resolve refuses raw
      = Ok (hd EmptyString
               (Url.values_of "url" (Url.parse_qsl (Url.query parsed)))))
  /\ (forall b q,
        Url.all_chars Url.plain_char b = true ->
        Url.all_chars Url.query_char q = true ->
        Url.resolve refuses (b +:+ String "?" q)
        = Ok (hd EmptyString (Url.values_of "url" (Url.parse_qsl q))))
  /\ (forall extract entry article item rest props raw parsed
             title teaser pub pub_props pub_name,
        extract (str_node (clean_bold article)) = Ok (item :: rest) ->
        getitem item "properties" = Ok props ->
        getitem props "url" = Ok (VStr raw) ->
        Url.urlparse refuses raw = Ok parsed ->
        Url.values_of "url" (Url.parse_qsl (Url.query parsed)) = [] ->
        getitem props "name" = Ok title ->
        getitem props "description" = Ok teaser ->
        getitem props "publisher" = Ok pub ->
        getitem pub "properties" = Ok pub_props ->
        getitem pub_props "name" = Ok pub_name ->
        article_row refuses extract entry article
        = Ok (Row (e_date entry) (e_message_id entry) EmptyString
                  title pub_name teaser))
  /\ Url.resolve refuses
       "https://redirect.example/?url=https%3A%2F%2Fnews.example%2Fa"
     = Ok "https://news.example/a".
Proof.
  split; [|split; [|split]].
  - intros raw parsed Hp. apply UrlFacts.resolve_first_value, Hp.
  - intros b q Hb Hq.
    destruct (UrlFacts.urlsplit_plain_query refuses b q Hb Hq)
      as (parsed & Hp & Hquery).
    rewrite (UrlFacts.resolve_first_value refuses _ parsed Hp), Hquery.
    reflexivity.
  - intros extract entry article item rest props raw parsed title teaser
      pub pub_props pub_name H1 H2 H3 Hp Hnone H5 H6 H7 H8 H9.
    apply (article_row_ok refuses extract entry article item rest props
             (VStr raw) title teaser pub pub_props pub_name EmptyString);
      try assumption.
    simpl. rewrite (UrlFacts.resolve_first_value refuses raw parsed Hp).
    rewrite Hnone. reflexivity.
  - vm_compute. reflexivity.
Qed.

(** A URL without a [url] field in its query: the resolver returns the
    empty string. *)
Lemma resolver_returns_url_parameter_witness :
  Url.resolve Url.lenient "https://www.google.com/alerts?rct=j&q=x" = Ok "".
Proof.
  destruct (resolver_returns_url_parameter Url.lenient) as (H & _).
  apply (H "https://www.google.com/alerts?rct=j&q=x"
           (Url.SplitResult "www.google.com" "/alerts" "rct=j&q=x" "")).
  reflexivity.
Defined.




End ArticlesFacts.

(** ** The whole script *)

Module ScriptFacts.
Import Py St Html Script LoopFacts.

Lemma and_then_frame {B} (f : state -> B) (r : result)
    (k : state -> result) :
  (forall st, f (final_state (k st)) = f st) ->
  f (final_state (r >>> k)) = f (final_state r).
Proof.
  intros Hk. destruct r as [st|e st]; simpl; [apply Hk | reflexivity].
Qed.

Section Run.

Variable parsedate_tz : option string -> option DateFormat.date_tuple.
Variable strict_netloc_refuses : string -> bool.
Variable parse_html : string -> list node.
Variable extract : string -> res (list value).

Abbreviation read_phase := (read_phase parsedate_tz).
Abbreviation article_phase :=
  (article_phase strict_netloc_refuses parse_html extract).
Abbreviation run :=
  (run parsedate_tz strict_netloc_refuses parse_html extract).
Abbreviation block_row := (Articles.block_row strict_netloc_refuses extract).
Abbreviation article_row :=
  (Articles.article_row strict_netloc_refuses extract).

Lemma part_body_later (key : nat) (m : Mbox.message) (p : Mbox.part)
    (st : state) :
  later_parts (final_state (Mbox.part_body parsedate_tz key m p st))
  = later_parts st.
Proof.
  unfold Mbox.part_body. destruct (Mbox.is_html p); [|reflexivity].
  destruct (Mbox.payload_text p); [|reflexivity].
  destruct (parsedate_tz (Mbox.date m)); reflexivity.
Qed.

Lemma message_body_later (km : nat * Mbox.message) (st : state) :
  later_parts (final_state (Mbox.message_body parsedate_tz km st))
  = later_parts st.
Proof.
  destruct km as [key m]. unfold Mbox.message_body.
  destruct (Mbox.defects m); [|reflexivity].
  rewrite (for_each_frame later_parts); [reflexivity|].
  intros p st'. apply part_body_later.
Qed.

(** Reading the archive leaves the article list empty, the output file
    alone and the mailbox open, however it ends. *)
Lemma read_phase_later (archive : list (nat * Mbox.message)) :
  later_parts (final_state (read_phase archive)) = ([], Untouched, true).
Proof.
  unfold Script.read_phase.
  rewrite !and_then_frame by reflexivity.
  unfold Mbox.read_messages.
  rewrite (for_each_frame later_parts); [reflexivity|].
  intros km st. apply message_body_later.
Qed.

Lemma article_phase_open (st : state) :
  archive_open (final_state (article_phase st)) = archive_open st.
Proof.
  unfold Script.article_phase.
  rewrite and_then_frame by reflexivity.
  unfold Articles.extract_articles.
  rewrite (for_each_frame archive_open); [reflexivity|].
  intros entry st'. unfold Articles.entry_body.
  rewrite (for_each_frame archive_open); [reflexivity|].
  intros a st''. unfold Articles.article_body.
  destruct (Articles.article_row _ _ entry a); reflexivity.
Qed.

Lemma read_phase_last_line (archive : list (nat * Mbox.message))
    (st : state) :
  read_phase archive = Done st -> last (stdout st) = Some ArchiveClosed.
Proof.
  unfold Script.read_phase. intros H.
  apply and_then_done in H as (st1 & _ & H).
  injection H as <-. simpl. apply last_snoc.
Qed.

(** C9 on the code.  Line 98 names the [close] method and does not call
    it.  After the reading phase, and at the end of the run, however
    they end, the mailbox handle is still open, although the script has
    printed that the archive was closed; a call of [close] would have
    released it. *)
Theorem archive_is_never_closed (archive : list (nat * Mbox.message))
    (d : disk) :
  archive_open (final_state (read_phase archive)) = true
  /\ archive_open (final_state (run archive d)) = true
  /\ (forall st, read_phase archive = Done st ->
                 last (stdout st) = Some ArchiveClosed)
  /\ (forall st, archive_open (final_state (Mbox.mbox_close st)) = false).
Proof.
  pose proof (read_phase_later archive) as Hr.
  unfold later_parts in Hr. injection Hr as _ _ Hopen.
  split; [exact Hopen|]. split; [|split].
  - unfold Script.run.
    rewrite (and_then_frame archive_open)
      by (intros st; destruct d; reflexivity).
    destruct (read_phase archive) as [st|e st]; simpl in *.
    + rewrite article_phase_open. exact Hopen.
    + exact Hopen.
  - apply read_phase_last_line.
  - reflexivity.
Qed.

(** Whatever the disk does, the output block completes. *)
Lemma output_stage_done (d : disk) (st : state) :
  exists st', output_stage d st = Done st'.
Proof.
  destruct d; eexists; reflexivity.
Qed.

(** C6.  An article block whose extraction gives no item raises
    [IndexError]; one whose publisher item has no [name] raises
    [KeyError].  Whatever a block raises is not caught: the run dies
    at the first block that raises, the article list holds the rows
    of the blocks before it and no other, no later block is looked
    at, nothing more is printed and the output file is not opened. *)
Theorem extraction_defect_aborts_run :
  (forall entry article,
      extract (str_node (clean_bold article)) = Ok [] ->
      article_row entry article = Raise IndexError)
  /\ (forall entry article item rest props google_url url title teaser
             pub pub_props,
        extract (str_node (clean_bold article)) = Ok (item :: rest) ->
        getitem item "properties" = Ok props ->
        getitem props "url" = Ok google_url ->
        Url.resolve_value strict_netloc_refuses google_url = Ok url ->
        getitem props "name" = Ok title ->
        getitem props "description" = Ok teaser ->
        getitem props "publisher" = Ok pub ->
        getitem pub "properties" = Ok (VDict pub_props) ->
        pub_props !! "name" = None ->
        article_row entry article = Raise KeyError)
  /\ (forall archive d st1 pre b post rows e,
        read_phase archive = Done st1 ->
        Articles.blocks parse_html (messages_parsed st1)
        = pre ++ b :: post ->
        Forall2 (fun b r => block_row b = Ok r) pre rows ->
        block_row b = Raise e ->
        exists st',
          run archive d = Crashed e st'
          /\ article_list st' = rows
          /\ stdout st' = stdout st1
          /\ output_file st' = Untouched).
Proof.
  split; [|split].
  - intros entry article H. unfold Articles.article_row.
    rewrite H. reflexivity.
  - intros entry article item rest props google_url url title teaser
      pub pub_props H1 H2 H3 H4 H5 H6 H7 H8 H9.
    unfold Articles.article_row.
    rewrite H1. simpl. rewrite H2. simpl. rewrite H3. simpl.
    rewrite H4. simpl. rewrite H5. simpl. rewrite H6. simpl.
    rewrite H7. simpl. rewrite H8. simpl. rewrite H9. reflexivity.
  - intros archive d st1 pre b post rows e Hread Hblocks Hpre Hb.
    pose proof (read_phase_later archive) as Hl.
    rewrite Hread in Hl. unfold later_parts in Hl. simpl in Hl.
    injection Hl as Hart Hout _.
    exists (extend_articles rows st1).
    unfold Script.run, Script.article_phase. rewrite Hread. simpl.
    rewrite ArticlesFacts.extract_articles_blocks, Hblocks.
    rewrite (ArticlesFacts.rows_loop_crash block_row pre b post rows e
               st1 Hpre Hb).
    simpl. rewrite Hart. auto.
Qed.


End Run.

(** The sample archive with an extractor that finds nothing in the
    second article: the run dies with [IndexError], one row in memory,
    no file. *)
Lemma extraction_defect_aborts_run_witness :
  exists st',
    Script.run Sample.parsedate Url.lenient Sample.parse_html
      Sample.extract_first_only Sample.archive WritesAll
    = Crashed IndexError st'
    /\ length (article_list st') = 1
    /\ output_file st' = Untouched.
Proof.
  pose (entry := Entry "03052024" (Some "<1@alerts>")
                       Sample.two_articles_html).
  destruct (extraction_defect_aborts_run Sample.parsedate Url.lenient
              Sample.parse_html Sample.extract_first_only) as (_ & _ & H).
  destruct (H Sample.archive WritesAll
              (final_state (Script.read_phase Sample.parsedate
                              Sample.archive))
              [(entry, Sample.first_article)]
              (entry, Sample.second_article) []
              [Row "03052024" (Some "<1@alerts>") "https://news.example/a"
                   (VStr "AI-powered search") (VStr "Example News")
                   (VStr "teaser")]
              IndexError)
    as (st' & Hrun & Hrows & _ & Hfile).
  - reflexivity.
  - reflexivity.
  - constructor; [reflexivity | constructor].
  - reflexivity.
  - exists st'. rewrite Hrows. auto.
Defined.



Lemma archive_is_never_closed_witness :
  archive_open
    (final_state (Script.read_phase Sample.parsedate Sample.archive)) = true
  /\ last (stdout (final_state
                     (Script.read_phase Sample.parsedate Sample.archive)))
     = Some ArchiveClosed.
Proof.
  destruct (archive_is_never_closed Sample.parsedate Url.lenient
              Sample.parse_html Sample.extract Sample.archive WritesAll)
    as (H1 & _ & H3 & _).
  split; [exact H1|].
  apply (H3 (final_state (Script.read_phase Sample.parsedate Sample.archive))).
  reflexivity.
Defined.

End ScriptFacts.

(** ** The start of the script *)

Module StartupFacts.
Import Py Startup.

Local Open Scope Z_scope.

(** X1.  The version check of lines 17-20 lets the script go on exactly
    for the versions 2.7 to 2.x and 3.0 to 3.11, whatever the micro
    version, the release level and the serial: every 2.7 release is above
    the pair (2, 7).  It leaves with the first message below 2.7, with the
    second one from 3.12 on, and the comparison with a pair never reaches
    the release level, so that it cannot raise. *)
Theorem version_gate (major minor micro : Z) (level : string) (serial : Z) :
  let v := version_info major minor micro level serial in
  (version_check v = Proceed <->
     (major = 2 /\ 7 <= minor) \/ (major = 3 /\ minor < 12))
  /\ (version_check v = SystemExit too_old <->
        major < 2 \/ (major = 2 /\ minor < 7))
  /\ (version_check v = SystemExit too_new <->
        3 < major \/ (major = 3 /\ 12 <= minor))
  /\ (forall e, version_check v <> Uncaught e).
Proof.
  intros v. subst v. unfold version_check, version_info.
  cbn [tuple_gt tuple_lt obj_eqb obj_gt obj_lt].
  repeat match goal with
         | |- context [Z.eqb ?a ?b] => destruct (Z.eqb_spec a b)
         | |- context [Z.ltb ?a ?b] => destruct (Z.ltb_spec a b)
         end;
    cbn [sys_exit];
    repeat split;
    try lia;
    try (intros; discriminate);
    try (let H := fresh in
         intros H; first [lia | exfalso; vm_compute in H; discriminate H]);
    try (intros _; first [reflexivity | exfalso; lia]).
Qed.

Section Main.

Variable parsedate_tz : option string -> option DateFormat.date_tuple.
Variable strict_netloc_refuses : string -> bool.
Variable parse_html : string -> list Html.node.
Variable extract : string -> res (list value).

Abbreviation main :=
  (main parsedate_tz strict_netloc_refuses parse_html extract).


End Main.


End StartupFacts.

(** ** What the message loop keeps *)

Module ReadFacts.
Import Py St DateFormat Mbox Account LoopFacts.

Lemma skips_print (l : line) (st : state) :
  skips (print l st) = skips st + (if is_skip l then 1 else 0).
Proof.
  unfold skips. simpl. rewrite List.filter_app, length_app. simpl.
  destruct (is_skip l); reflexivity.
Qed.

(** A skipped message: one more on the counter, one more diagnostic. *)
Lemma unreported_skip (l : line) (st : state) :
  is_skip l = true ->
  unreported (incr_defective (print l st)) = unreported st.
Proof.
  intros Hl. unfold unreported.
  change (skips (incr_defective (print l st))) with (skips (print l st)).
  rewrite skips_print, Hl. simpl. lia.
Qed.

Section Loop.

Variable parsedate_tz : option string -> option date_tuple.

Abbreviation part_body := (part_body parsedate_tz).
Abbreviation message_body := (message_body parsedate_tz).
Abbreviation read_messages := (read_messages parsedate_tz).
Abbreviation entries_of := (entries_of parsedate_tz).
Abbreviation entries_of_archive := (entries_of_archive parsedate_tz).

Lemma part_loop_parsed (key : nat) (m : message) (parts : list part)
    (st st' : state) :
  for_each (part_body key m) parts st = Done st' ->
  messages_parsed st'
  = messages_parsed st
    ++ match parsedate_tz (date m) with
       | Some t => map (Entry (date_mdcy t) (message_id m)) (texts parts)
       | None => []
       end.
Proof.
  revert st st'.
  apply (for_each_done_inv
           (fun l st st' =>
              messages_parsed st'
              = messages_parsed st
                ++ match parsedate_tz (date m) with
                   | Some t =>
                       map (Entry (date_mdcy t) (message_id m)) (texts l)
                   | None => []
                   end)).
  - intros st. destruct (parsedate_tz (date m)); simpl;
      rewrite app_nil_r; reflexivity.
  - intros p l st st1 st2 Hp Hl. rewrite Hl. clear Hl.
    unfold Mbox.part_body in Hp. unfold texts. simpl.
    destruct (is_html p).
    + destruct (payload_text p) as [s|e] eqn:Hs; [|discriminate].
      destruct (parsedate_tz (date m)) as [t|]; injection Hp as <-; simpl.
      * rewrite Hs. simpl. rewrite <- app_assoc. reflexivity.
      * reflexivity.
    + injection Hp as <-. reflexivity.
Qed.

Lemma message_body_parsed (km : nat * message) (st st' : state) :
  message_body km st = Done st' ->
  messages_parsed st' = messages_parsed st ++ entries_of (snd km).
Proof.
  destruct km as [key m]. unfold Mbox.message_body, Account.entries_of.
  simpl. destruct (defects m).
  - intros H. apply part_loop_parsed in H. exact H.
  - intros [= <-]. simpl. rewrite app_nil_r. reflexivity.
Qed.

Lemma read_messages_parsed (archive : list (nat * message))
    (st st' : state) :
  read_messages archive st = Done st' ->
  messages_parsed st' = messages_parsed st ++ entries_of_archive archive.
Proof.
  revert st st'.
  apply (for_each_done_inv
           (fun l st st' =>
              messages_parsed st'
              = messages_parsed st ++ entries_of_archive l)).
  - intros st. unfold Account.entries_of_archive. simpl.
    rewrite app_nil_r. reflexivity.
  - intros km l st st1 st2 Hm Hl. rewrite Hl.
    rewrite (message_body_parsed km st st1 Hm).
    unfold Account.entries_of_archive. simpl.
    rewrite <- app_assoc. reflexivity.
Qed.

Lemma part_loop_completes (key : nat) (m : message) (parts : list part) :
  forall st,
    (exists st', for_each (part_body key m) parts st = Done st') <->
    forallb decodes (List.filter is_html parts) = true.
Proof.
  induction parts as [|p parts IH]; intros st.
  - simpl. split; eauto.
  - simpl. unfold Mbox.part_body at 1. unfold decodes at 1.
    destruct (is_html p); simpl.
    + destruct (payload_text p) as [s|e]; simpl.
      * destruct (parsedate_tz (date m)); simpl; apply IH.
      * split; [intros [st' H]; discriminate | discriminate].
    + apply IH.
Qed.

Lemma message_body_completes (km : nat * message) (st : state) :
  (exists st', message_body km st = Done st') <-> passes (snd km) = true.
Proof.
  destruct km as [key m]. unfold Mbox.message_body, passes. simpl.
  destruct (defects m).
  - apply part_loop_completes.
  - split; eauto.
Qed.

Lemma part_loop_skipped (key : nat) (m : message) (parts : list part)
    (st st' : state) :
  for_each (part_body key m) parts st = Done st' ->
  messages_defective st'
  = messages_defective st
    + match parsedate_tz (date m) with
      | Some _ => 0
      | None => length (List.filter is_html parts)
      end.
Proof.
  revert st st'.
  apply (for_each_done_inv
           (fun l st st' =>
              messages_defective st'
              = messages_defective st
                + match parsedate_tz (date m) with
                  | Some _ => 0
                  | None => length (List.filter is_html l)
                  end)).
  - intros st. destruct (parsedate_tz (date m)); simpl; lia.
  - intros p l st st1 st2 Hp Hl. rewrite Hl. clear Hl.
    unfold Mbox.part_body in Hp. simpl. destruct (is_html p).
    + destruct (payload_text p) as [s|e]; [|discriminate].
      destruct (parsedate_tz (date m)); injection Hp as <-; simpl; lia.
    + injection Hp as <-. reflexivity.
Qed.

Lemma read_messages_skipped (archive : list (nat * message))
    (st st' : state) :
  read_messages archive st = Done st' ->
  messages_defective st'
  = messages_defective st
    + list_sum (map (fun km => skipped_count parsedate_tz (snd km)) archive).
Proof.
  revert st st'.
  apply (for_each_done_inv
           (fun l st st' =>
              messages_defective st'
              = messages_defective st
                + list_sum (map (fun km => skipped_count parsedate_tz (snd km))
                                l))).
  - intros st. simpl. lia.
  - intros [key m] l st st1 st2 Hm Hl. rewrite Hl. clear Hl.
    cbn [map list_sum fold_right snd]. unfold Mbox.message_body in Hm.
    assert (E : skipped_count parsedate_tz m
                = match defects m with
                  | [] => match parsedate_tz (date m) with
                          | Some _ => 0
                          | None => length (html_parts m)
                          end
                  | _ => 1
                  end) by reflexivity.
    rewrite E. clear E. destruct (defects m).
    + apply part_loop_skipped in Hm. simpl in Hm. rewrite Hm.
      unfold html_parts. fold (list_sum
        (map (fun km : nat * message => skipped_count parsedate_tz (snd km))
             l)). lia.
    + injection Hm as <-. simpl.
      fold (list_sum
        (map (fun km : nat * message => skipped_count parsedate_tz (snd km))
             l)). lia.
Qed.

(** X3.  When the reading phase completes, its three variables are
    functions of the archive.  [messages_total] is the number of messages.
    [messages_parsed] holds the elements of the messages in the order of
    the archive, for each message one element per HTML part in the order
    of the walk, with the date code and the id of the message; a message
    with defects or with a date that does not parse gives none.
    [messages_defective] counts one for a message with defects, and one
    per HTML part for a message whose date does not parse. *)
Theorem reading_phase_result (archive : list (nat * message)) (st : state) :
  Script.read_phase parsedate_tz archive = Done st ->
  messages_total st = length archive
  /\ messages_parsed st = entries_of_archive archive
  /\ messages_defective st
     = list_sum (map (fun km => skipped_count parsedate_tz (snd km)) archive).
Proof.
  unfold Script.read_phase. intros H.
  apply and_then_done in H as (st2 & H & Hc). injection Hc as <-.
  apply and_then_done in H as (st1 & H & Hr). injection Hr as <-.
  pose proof (MboxFacts.read_messages_counts _ _ _ _ H) as [Ht _].
  pose proof (read_messages_parsed _ _ _ H) as Hp.
  pose proof (read_messages_skipped _ _ _ H) as Hs.
  simpl in *. auto.
Qed.


Lemma part_body_unreported (key : nat) (m : message) (p : part)
    (st : state) :
  unreported (final_state (part_body key m p st)) = unreported st.
Proof.
  unfold Mbox.part_body. destruct (is_html p); [|reflexivity].
  destruct (payload_text p); [|reflexivity].
  destruct (parsedate_tz (date m)); [reflexivity|].
  apply unreported_skip. reflexivity.
Qed.

Lemma message_body_unreported (km : nat * message) (st : state) :
  unreported (final_state (message_body km st)) = unreported st.
Proof.
  destruct km as [key m]. unfold Mbox.message_body.
  destruct (defects m).
  - rewrite (for_each_frame unreported); [reflexivity|].
    intros p st'. apply part_body_unreported.
  - cbn [final_state]. rewrite unreported_skip; reflexivity.
Qed.

Lemma read_messages_unreported (archive : list (nat * message))
    (st : state) :
  unreported (final_state (read_messages archive st)) = unreported st.
Proof.
  unfold Mbox.read_messages. apply for_each_frame.
  intros km st'. apply message_body_unreported.
Qed.

End Loop.

(** The sample archive: one message read, one element, nothing skipped. *)
Lemma reading_phase_result_witness :
  let st := final_state (Script.read_phase Sample.parsedate Sample.archive) in
  messages_total st = 1
  /\ messages_parsed st
     = entries_of_archive Sample.parsedate Sample.archive
  /\ messages_defective st = 0.
Proof.
  exact (reading_phase_result Sample.parsedate Sample.archive
           (final_state (Script.read_phase Sample.parsedate Sample.archive))
           eq_refl).
Defined.

End ReadFacts.

(** ** The run as a whole *)

Module RunFacts.
Import Py St Html Script Account LoopFacts.

Lemma message_parts_print (l : line) (st : state) :
  is_skip l = false -> message_parts (print l st) = message_parts st.
Proof.
  intros Hl. unfold message_parts. rewrite ReadFacts.skips_print, Hl.
  simpl. rewrite Nat.add_0_r. reflexivity.
Qed.

Lemma unreported_parts (st st' : state) :
  message_parts st' = message_parts st -> unreported st' = unreported st.
Proof.
  unfold message_parts, unreported. intros [= _ _ -> ->]. reflexivity.
Qed.

Lemma output_stage_parts (d : disk) (st : state) :
  message_parts (final_state (output_stage d st)) = message_parts st.
Proof.
  destruct d; cbn [output_stage final_state];
    repeat first [ rewrite message_parts_print by reflexivity
                 | progress change (message_parts (set_output ?f ?s))
                     with (message_parts s) ];
    reflexivity.
Qed.

Lemma output_stage_articles (d : disk) (st : state) :
  article_list (final_state (output_stage d st)) = article_list st.
Proof.
  destruct d; reflexivity.
Qed.

(** However the loop over the blocks ends, it has appended the rows of an
    initial segment of the blocks; of all of them when it completes. *)
Lemma rows_loop_outcome {A} (body_of : A -> res row) (bs : list A) :
  forall st,
    let r := for_each (fun b st => match body_of b with
                                   | Ok r => Done (append_article r st)
                                   | Raise e => Crashed e st
                                   end) bs st in
    exists k rows,
      Forall2 (fun b r => body_of b = Ok r) (firstn k bs) rows
      /\ final_state r = extend_articles rows st
      /\ ((exists st', r = Done st') -> k = length bs).
Proof.
  induction bs as [|b bs IH]; intros st; cbn zeta.
  - exists 0, []. cbn [for_each final_state firstn].
    rewrite ArticlesFacts.extend_articles_nil. repeat split. constructor.
  - cbn [for_each]. destruct (body_of b) as [r|e] eqn:Hb; cbn [and_then].
    + destruct (IH (append_article r st)) as (k & rows & Hrows & Hfin & Hall).
      exists (S k), (r :: rows). cbn [firstn]. split; [|split].
      * constructor; assumption.
      * rewrite Hfin. apply ArticlesFacts.extend_articles_cons.
      * intros Hd. cbn [length]. f_equal. apply Hall, Hd.
    + exists 0, []. cbn [firstn final_state].
      rewrite ArticlesFacts.extend_articles_nil. repeat split; [constructor|].
      intros [st' H]. discriminate.
Qed.

Section Run.

Variable parsedate_tz : option string -> option DateFormat.date_tuple.
Variable strict_netloc_refuses : string -> bool.
Variable parse_html : string -> list node.
Variable extract : string -> res (list value).

Abbreviation read_phase := (read_phase parsedate_tz).
Abbreviation article_phase :=
  (article_phase strict_netloc_refuses parse_html extract).
Abbreviation run :=
  (run parsedate_tz strict_netloc_refuses parse_html extract).
Abbreviation block_row := (Articles.block_row strict_netloc_refuses extract).
Abbreviation blocks := (Articles.blocks parse_html).
Abbreviation entries_of_archive := (entries_of_archive parsedate_tz).

Lemma article_phase_parts (st : state) :
  message_parts (final_state (article_phase st)) = message_parts st.
Proof.
  unfold Script.article_phase.
  rewrite (ScriptFacts.and_then_frame message_parts)
    by (intros st'; apply message_parts_print; reflexivity).
  unfold Articles.extract_articles.
  rewrite (for_each_frame message_parts); [reflexivity|].
  intros entry st'. unfold Articles.entry_body.
  rewrite (for_each_frame message_parts); [reflexivity|].
  intros a st''. unfold Articles.article_body.
  destruct (Articles.article_row _ _ entry a); reflexivity.
Qed.

Lemma run_parts (archive : list (nat * Mbox.message)) (d : disk) :
  message_parts (final_state (run archive d))
  = message_parts (final_state
                     (Mbox.read_messages parsedate_tz archive initial)).
Proof.
  unfold Script.run, Script.read_phase.
  rewrite (ScriptFacts.and_then_frame message_parts)
    by (apply output_stage_parts).
  rewrite (ScriptFacts.and_then_frame message_parts)
    by (apply article_phase_parts).
  rewrite (ScriptFacts.and_then_frame message_parts)
    by (intros st; apply message_parts_print; reflexivity).
  rewrite (ScriptFacts.and_then_frame message_parts); [reflexivity|].
  intros st. unfold Mbox.report, final_state.
  rewrite !message_parts_print by reflexivity. reflexivity.
Qed.

(** X5.  At the end of every run, however it ends, the defective counter
    is the number of "Skipping message" lines on the console: no message is
    counted defective without its diagnostic, and no diagnostic is printed
    without the count; the later phases change neither. *)
Theorem every_skip_is_reported (archive : list (nat * Mbox.message))
    (d : disk) :
  messages_defective (final_state (run archive d))
  = skips (final_state (run archive d)).
Proof.
  assert (H : unreported (final_state (run archive d)) = unreported initial).
  { rewrite (unreported_parts _ _ (run_parts archive d)).
    apply ReadFacts.read_messages_unreported. }
  unfold unreported in H.
  change (skips initial) with 0 in H.
  change (messages_defective initial) with 0 in H. lia.
Qed.

Lemma only_skips_print (l : line) (st : state) :
  is_skip l = true ->
  forallb is_skip (stdout (print l st)) = forallb is_skip (stdout st).
Proof.
  intros Hl. simpl. rewrite forallb_app. simpl. rewrite Hl.
  rewrite !Bool.andb_true_r. reflexivity.
Qed.

(** The message loop prints nothing but diagnostics. *)
Lemma read_messages_only_skips (archive : list (nat * Mbox.message))
    (st : state) :
  forallb is_skip
    (stdout (final_state (Mbox.read_messages parsedate_tz archive st)))
  = forallb is_skip (stdout st).
Proof.
  unfold Mbox.read_messages.
  apply (for_each_frame (fun st => forallb is_skip (stdout st))).
  intros [key m] st'. unfold Mbox.message_body.
  destruct (Mbox.defects m).
  - rewrite (for_each_frame (fun st => forallb is_skip (stdout st)));
      [reflexivity|].
    intros p st''. unfold Mbox.part_body.
    destruct (Mbox.is_html p); [|reflexivity].
    destruct (Mbox.payload_text p); [|reflexivity].
    destruct (parsedate_tz (Mbox.date m)); [reflexivity|].
    exact (only_skips_print (SkipDate key (Mbox.date m)) st'' eq_refl).
  - exact (only_skips_print (SkipDefects key _) (incr_total st') eq_refl).
Qed.

Lemma filter_all {A} (p : A -> bool) (l : list A) :
  forallb p l = true -> List.filter p l = l.
Proof.
  induction l as [|x l IH]; simpl; [reflexivity|].
  intros H. apply andb_prop in H as [Hx Hl]. rewrite Hx, (IH Hl).
  reflexivity.
Qed.

(** X6.  When the reading phase completes, the console holds the
    diagnostics of the skipped messages and nothing else, followed by the
    three totals and the line that says that the archive is closed.  The
    total printed is the number of messages of the archive, the number of
    defective messages printed is the number of diagnostics above it, and
    the number of parsed messages printed is the number of elements that
    the archive gives. *)
Theorem console_after_reading (archive : list (nat * Mbox.message))
    (st : state) :
  read_phase archive = Done st ->
  exists diagnostics,
    stdout st
    = diagnostics
      ++ [TotalMessages (length archive);
          TotalDefective (length diagnostics);
          TotalExtracted (length (entries_of_archive archive));
          ArchiveClosed]
    /\ Forall (fun l => is_skip l = true) diagnostics.
Proof.
  unfold Script.read_phase. intros H.
  apply and_then_done in H as (st2 & H & Hc). injection Hc as <-.
  apply and_then_done in H as (st1 & H & Hr). injection Hr as <-.
  pose proof (MboxFacts.read_messages_counts _ _ _ _ H) as [Ht _].
  pose proof (ReadFacts.read_messages_parsed _ _ _ _ H) as Hp.
  pose proof (read_messages_only_skips archive initial) as Hs.
  pose proof (ReadFacts.read_messages_unreported parsedate_tz archive initial)
    as Hu.
  rewrite H in Hs, Hu. cbn [final_state] in Hs, Hu.
  change (forallb is_skip (stdout initial)) with true in Hs.
  unfold unreported in Hu.
  change (skips initial) with 0 in Hu.
  change (messages_defective initial) with 0 in Hu.
  unfold skips in Hu. rewrite (filter_all _ _ Hs) in Hu.
  exists (stdout st1). split.
  - simpl. rewrite <- !app_assoc. simpl.
    simpl in Ht, Hp. rewrite Ht, Hp.
    replace (messages_defective st1) with (length (stdout st1)) by lia.
    reflexivity.
  - apply Forall_forall. intros l Hl.
    rewrite forallb_forall in Hs. apply Hs, list_elem_of_In, Hl.
Qed.

(** X7.  In every run, however it ends and whatever the disk does, the
    article list is made of the rows of an initial segment of the article
    blocks of the archive, taken message by message in the order of the
    archive and block by block in the order of the document: no row is out
    of order, repeated or invented.  When the run completes the segment is
    all the blocks, and when the disk does not fail the output file holds
    exactly these rows. *)
Theorem rows_follow_the_blocks (archive : list (nat * Mbox.message))
    (d : disk) :
  exists k,
    Forall2 (fun b r => block_row b = Ok r)
            (firstn k (blocks (entries_of_archive archive)))
            (article_list (final_state (run archive d)))
    /\ ((exists st', run archive d = Done st') ->
        k = length (blocks (entries_of_archive archive)))
    /\ (d = WritesAll ->
        forall st', run archive d = Done st' ->
                    output_file st' = Written (article_list st')).
Proof.
  unfold Script.run.
  pose proof (ScriptFacts.read_phase_later parsedate_tz archive) as Hl.
  destruct (read_phase archive) as [st1|e st1] eqn:Hread.
  - unfold later_parts in Hl. cbn [final_state] in Hl.
    injection Hl as Hart _ _.
    assert (Hp : messages_parsed st1 = entries_of_archive archive).
    { unfold Script.read_phase in Hread.
      apply and_then_done in Hread as (st2 & H & Hc). injection Hc as <-.
      apply and_then_done in H as (st0 & H & Hr). injection Hr as <-.
      apply ReadFacts.read_messages_parsed in H. exact H. }
    cbn [and_then]. unfold Script.article_phase.
    rewrite ArticlesFacts.extract_articles_blocks, Hp.
    destruct (rows_loop_outcome block_row
                (blocks (entries_of_archive archive)) st1)
      as (k & rows & Hrows & Hfin & Hall).
    cbn zeta in Hfin, Hall. exists k.
    destruct (for_each _ (blocks (entries_of_archive archive)) st1)
      as [st2|e st2]; cbn [final_state and_then Articles.report] in *.
    + subst st2. split; [|split].
      * rewrite output_stage_articles. simpl. rewrite Hart. exact Hrows.
      * intros _. apply Hall. eauto.
      * intros -> st' [= <-]. reflexivity.
    + subst st2. split; [|split].
      * simpl. rewrite Hart. exact Hrows.
      * intros [st' H]. discriminate.
      * intros _ st' H. discriminate.
  - exists 0. unfold later_parts in Hl. cbn [final_state] in Hl.
    injection Hl as Hart _ _. cbn [and_then final_state firstn].
    rewrite Hart. split; [constructor|]. split.
    + intros [st' H]. discriminate.
    + intros _ st' H. discriminate.
Qed.

End Run.

(** The sample archive: the reading phase completes and prints its three
    totals, without diagnostics. *)
Lemma console_after_reading_witness :
  exists diagnostics,
    stdout (final_state (Script.read_phase Sample.parsedate Sample.archive))
    = diagnostics
      ++ [TotalMessages 1; TotalDefective (length diagnostics);
          TotalExtracted 1; ArchiveClosed].
Proof.
  destruct (console_after_reading Sample.parsedate Sample.archive
              (final_state
                 (Script.read_phase Sample.parsedate Sample.archive))
              eq_refl) as (diagnostics & H & _).
  exists diagnostics. exact H.
Defined.

(** The sample archive on a disk that does not fail: two blocks, two rows,
    and the file holds them. *)
Lemma rows_follow_the_blocks_witness :
  exists k,
    k = 2
    /\ output_file
         (final_state
            (Script.run Sample.parsedate Url.lenient Sample.parse_html
               Sample.extract Sample.archive WritesAll))
       = Written
           (article_list
              (final_state
                 (Script.run Sample.parsedate Url.lenient Sample.parse_html
                    Sample.extract Sample.archive WritesAll))).
Proof.
  destruct (rows_follow_the_blocks Sample.parsedate Url.lenient
              Sample.parse_html Sample.extract Sample.archive WritesAll)
    as (k & _ & Hall & Hfile).
  exists k. split.
  - apply Hall. eexists. reflexivity.
  - apply (Hfile eq_refl). reflexivity.
Defined.

End RunFacts.

(** ** The CSV writer *)

Module CsvFacts.
Import Py St Csv.

#[local] Arguments Ascii.eqb : simpl never.

Lemma rev_app_rev_onto (s : string) :
  forall acc t,
    String.rev_app (rev_onto s acc) t = String.rev_app acc (s +:+ t).
Proof.
  induction s as [|c s IH]; intros acc t; cbn [rev_onto].
  - reflexivity.
  - rewrite IH. reflexivity.
Qed.

Lemma rev_rev_onto (s acc : string) :
  String.rev (rev_onto s acc) = String.rev_app acc s.
Proof.
  unfold String.rev. rewrite rev_app_rev_onto, HtmlFacts.append_nil_r.
  reflexivity.
Qed.

Lemma read_from_app (s t : string) :
  forall r,
    read_from r (s +:+ t)
    = match read_from r s with
      | Some r' => read_from r' t
      | None => None
      end.
Proof.
  induction s as [|c s IH]; intros r; simpl; [reflexivity|].
  destruct (step r c); [apply IH | reflexivity].
Qed.

Lemma special_false (c : ascii) :
  special c = false ->
  Ascii.eqb c tab = false /\ Ascii.eqb c quotechar = false
  /\ Ascii.eqb c cr = false /\ Ascii.eqb c lf = false.
Proof.
  unfold special. intros H.
  repeat (apply orb_false_iff in H as [H ?]). auto.
Qed.

(** Reading the characters of a plain field. *)
Lemma read_plain (s : string) :
  forall acc fs rs,
    has_special s = false ->
    read_from (Reader Plain acc fs rs) s
    = Some (Reader Plain (rev_onto s acc) fs rs).
Proof.
  induction s as [|c s IH]; intros acc fs rs H; simpl in *; [reflexivity|].
  apply orb_false_iff in H as [Hc Hs].
  destruct (special_false c Hc) as (Ht & Hq & Hr & Hl).
  unfold step. simpl. rewrite Ht, Hq, Hr, Hl. apply IH, Hs.
Qed.

(** Reading the inside of a quoted field. *)
Lemma read_quoted (s : string) :
  forall acc fs rs,
    read_from (Reader Quoted acc fs rs) (double_quotes s)
    = Some (Reader Quoted (rev_onto s acc) fs rs).
Proof.
  induction s as [|c s IH]; intros acc fs rs; simpl; [reflexivity|].
  destruct (Ascii.eqb c quotechar) eqn:E.
  - simpl. unfold step at 1. simpl. rewrite E.
    unfold step at 1. simpl. rewrite E. apply IH.
  - simpl. unfold step at 1. simpl. rewrite E. apply IH.
Qed.

(** After a written field, the reader is where a tab or a CR ends the
    field with the text of the field. *)
Lemma read_field (f : string) (fs : list string) (rs : list (list string)) :
  exists r,
    read_from (Reader AtStart EmptyString fs rs) (write_field f) = Some r
    /\ step r tab = Some (Reader AtStart EmptyString (f :: fs) rs)
    /\ step r cr = Some (Reader CrSeen EmptyString (f :: fs) rs).
Proof.
  unfold write_field. destruct (has_special f) eqn:Hf.
  - exists (Reader QuoteSeen (rev_onto f EmptyString) fs rs). split.
    + cbn [read_from]. unfold step at 1. simpl.
      change (Ascii.eqb quotechar quotechar) with true. cbn iota.
      rewrite read_from_app, read_quoted. reflexivity.
    + unfold step, end_field. simpl. rewrite rev_rev_onto. simpl.
      split; reflexivity.
  - destruct f as [|c s].
    + exists (Reader AtStart EmptyString fs rs). repeat split.
    + simpl in Hf. apply orb_false_iff in Hf as [Hc Hs].
      destruct (special_false c Hc) as (Ht & Hq & Hr & Hl).
      exists (Reader Plain (rev_onto s (String c EmptyString)) fs rs). split.
      * cbn [read_from]. unfold step. simpl. rewrite Ht, Hq, Hr, Hl.
        apply read_plain, Hs.
      * unfold step, end_field. simpl.
        rewrite (rev_rev_onto s (String c EmptyString)). simpl.
        split; reflexivity.
Qed.

(** Reading the fields of a record and the line terminator. *)
Lemma read_fields (fields : list string) (rs : list (list string)) :
  fields <> [] ->
  forall fs,
    read_from (Reader AtStart EmptyString fs rs)
              (join_fields fields +:+ lineterminator)
    = Some (Reader AtStart EmptyString [] (rev (rev fields ++ fs) :: rs)).
Proof.
  induction fields as [|f fields IH]; intros Hne fs; [contradiction|].
  destruct (read_field f fs rs) as (r & Hread & Htab & Hcr).
  destruct fields as [|g fields].
  - cbn [join_fields]. rewrite read_from_app, Hread.
    unfold lineterminator. cbn [read_from]. rewrite Hcr.
    unfold step. simpl. change (Ascii.eqb lf lf) with true. reflexivity.
  - change (join_fields (f :: g :: fields))
      with (write_field f +:+ String tab (join_fields (g :: fields))).
    rewrite HtmlFacts.append_assoc, read_from_app, Hread.
    change (String tab (join_fields (g :: fields)) +:+ lineterminator)
      with (String tab (join_fields (g :: fields) +:+ lineterminator)).
    cbn [read_from]. rewrite Htab. rewrite IH by discriminate.
    cbn [rev]. rewrite <- !app_assoc. reflexivity.
Qed.

Lemma read_record (fields : list string) (rs : list (list string)) :
  fields <> [] ->
  read_from (Reader AtStart EmptyString [] rs) (writerow fields)
  = Some (Reader AtStart EmptyString [] (fields :: rs)).
Proof.
  intros Hne.
  assert (G : read_from (Reader AtStart EmptyString [] rs)
                        (join_fields fields +:+ lineterminator)
              = Some (Reader AtStart EmptyString [] (fields :: rs))).
  { rewrite (read_fields fields rs Hne []).
    rewrite app_nil_r, rev_involutive. reflexivity. }
  unfold writerow. destruct fields as [|f fields]; [contradiction|].
  destruct f; destruct fields; first [exact G | reflexivity].
Qed.

Lemma read_records (records : list (list string)) :
  Forall (fun fields => fields <> []) records ->
  forall rs,
    read_from (Reader AtStart EmptyString [] rs) (writerows records)
    = Some (Reader AtStart EmptyString [] (rev records ++ rs)).
Proof.
  unfold writerows. induction 1 as [|fields records Hne _ IH]; intros rs.
  - reflexivity.
  - cbn [map]. rewrite HtmlFacts.concat_cons, read_from_app.
    rewrite (read_record fields rs Hne), IH.
    cbn [rev]. rewrite <- app_assoc. reflexivity.
Qed.

(** The text written determines the records. *)
Lemma read_writerows (records : list (list string)) :
  Forall (fun fields => fields <> []) records ->
  read (writerows records) = Some records.
Proof.
  intros H. unfold read. rewrite (read_records records H []).
  rewrite app_nil_r, rev_involutive. reflexivity.
Qed.

Section Fields.

Variable py_str : value -> string.

(** X8.  The text that [writerows] gives for the article list can be read
    back without loss: the reader recovers, record by record and field by
    field, the six texts of every row, whatever tabs, quotes and line
    breaks the fields hold.  Two article lists with the same file text
    have the same field texts, row by row. *)
Theorem file_text_lossless (rows1 rows2 : list row) :
  read (file_text py_str rows1) = Some (map (row_fields py_str) rows1)
  /\ (file_text py_str rows1 = file_text py_str rows2 ->
      map (row_fields py_str) rows1 = map (row_fields py_str) rows2).
Proof.
  assert (Hne : forall rows,
             Forall (fun fields : list string => fields <> [])
                    (map (row_fields py_str) rows)).
  { intros rows. apply Forall_forall. intros fields Hin.
    apply list_elem_of_In, in_map_iff in Hin as (r & <- & _). discriminate. }
  unfold file_text. split.
  - apply read_writerows, Hne.
  - intros H.
    pose proof (read_writerows _ (Hne rows1)) as H1.
    pose proof (read_writerows _ (Hne rows2)) as H2.
    rewrite H in H1. congruence.
Qed.

End Fields.

(** The rows of the sample run, read back from their text. *)
Lemma file_text_lossless_witness :
  let rows :=
    article_list
      (final_state
         (Script.run Sample.parsedate Url.lenient Sample.parse_html
            Sample.extract Sample.archive Script.WritesAll)) in
  read (file_text (fun _ => EmptyString) rows)
  = Some (map (row_fields (fun _ => EmptyString)) rows)
  /\ map (row_fields (fun _ => EmptyString)) rows
     = map (row_fields (fun _ => EmptyString)) rows.
Proof.
  intros rows.
  destruct (file_text_lossless (fun _ => EmptyString) rows rows)
    as [Hread Hsame].
  split; [exact Hread | exact (Hsame eq_refl)].
Defined.

End CsvFacts.

(** ** More on the date code *)

Module DateCodeFacts.
Import DateFormat.

Local Open Scope Z_scope.

Lemma digit_char_inj (a b : Z) :
  0 <= a <= 9 -> 0 <= b <= 9 -> digit_char a = digit_char b -> a = b.
Proof.
  intros Ha Hb H. unfold digit_char in H.
  apply (f_equal nat_of_ascii) in H.
  rewrite !nat_ascii_embedding in H by lia. lia.
Qed.

Lemma date_mdcy_digits (t : date_tuple) :
  0 <= dt_month t <= 99 ->
  0 <= dt_day t <= 99 ->
  1000 <= dt_year t <= 9999 ->
  date_mdcy t
  = two_digits (dt_month t) +:+ two_digits (dt_day t)
    +:+ four_digits (dt_year t).
Proof.
  intros Hm Hd Hy. unfold date_mdcy. cbn [String.concat].
  rewrite (DateFacts.format_two_digits _ Hm),
    (DateFacts.format_two_digits _ Hd),
    (DateFacts.format_four_digits _ Hy).
  reflexivity.
Qed.

(** X9.  On dates with a month and a day between 0 and 99 and a year
    between 1000 and 9999, the date code determines the date: two messages
    with the same code have the same year, month and day. *)
Theorem date_code_determines_date (t1 t2 : date_tuple) :
  0 <= dt_month t1 <= 99 -> 0 <= dt_day t1 <= 99 ->
  1000 <= dt_year t1 <= 9999 ->
  0 <= dt_month t2 <= 99 -> 0 <= dt_day t2 <= 99 ->
  1000 <= dt_year t2 <= 9999 ->
  date_mdcy t1 = date_mdcy t2 ->
  t1 = t2.
Proof.
  intros Hm1 Hd1 Hy1 Hm2 Hd2 Hy2 H.
  rewrite (date_mdcy_digits t1 Hm1 Hd1 Hy1),
    (date_mdcy_digits t2 Hm2 Hd2 Hy2) in H.
  destruct t1 as [y1 m1 d1], t2 as [y2 m2 d2].
  cbn [dt_year dt_month dt_day] in *.
  unfold two_digits, four_digits in H.
  injection H as A1 A2 A3 A4 A5 A6 A7 A8.
  apply digit_char_inj in A1, A2, A3, A4, A5, A6, A7, A8;
    try (Z.div_mod_to_equations; lia).
  f_equal; Z.div_mod_to_equations; lia.
Qed.

Lemma date_code_determines_date_witness :
  DateTuple 2024 3 5 = DateTuple 2024 3 5.
Proof.
  apply date_code_determines_date; simpl; try lia. reflexivity.
Defined.

End DateCodeFacts.

(** ** More on the resolver *)

Module QueryFacts.
Import Py Url Query.

#[local] Arguments Ascii.eqb : simpl never.

Lemma split_on_plain (c : ascii) (f : string) :
  has_char c f = false -> split_on c f = [f].
Proof.
  induction f as [|a f IH]; simpl; [reflexivity|].
  intros H. apply orb_false_iff in H as [Ha Hf].
  rewrite Ha, (IH Hf). reflexivity.
Qed.

Lemma split_on_app (c : ascii) (f t : string) :
  has_char c f = false ->
  split_on c (f +:+ String c t) = f :: split_on c t.
Proof.
  induction f as [|a f IH]; simpl.
  - intros _. rewrite Ascii.eqb_refl. reflexivity.
  - intros H. apply orb_false_iff in H as [Ha Hf].
    rewrite Ha, (IH Hf). reflexivity.
Qed.

Lemma field_ok_spec (f : string) :
  field_ok f = true ->
  all_chars query_char f = true /\ has_char "&" f = false.
Proof.
  unfold field_ok. intros H. apply andb_prop in H as [H1 H2].
  apply negb_true_iff in H2. auto.
Qed.

(** Splitting a joined query at [&] gives its fields back. *)
Lemma split_on_join (fields : list string) :
  fields <> [] ->
  forallb field_ok fields = true ->
  split_on "&" (join fields) = fields.
Proof.
  induction fields as [|f r IH]; [contradiction|].
  intros _ H. cbn [forallb] in H. apply andb_prop in H as [Hf Hr].
  apply field_ok_spec in Hf as [_ Hf].
  destruct r as [|g r].
  - simpl. apply split_on_plain, Hf.
  - change (join (f :: g :: r)) with (f +:+ String "&" (join (g :: r))).
    rewrite (split_on_app "&" f _ Hf), IH; [reflexivity | discriminate | exact Hr].
Qed.

Lemma join_query_chars (fields : list string) :
  forallb field_ok fields = true ->
  all_chars query_char (join fields) = true.
Proof.
  induction fields as [|f r IH]; [reflexivity|].
  intros H. cbn [forallb] in H. apply andb_prop in H as [Hf Hr].
  apply field_ok_spec in Hf as [Hf _].
  destruct r as [|g r].
  - exact Hf.
  - change (join (f :: g :: r)) with (f +:+ String "&" (join (g :: r))).
    rewrite UrlFacts.all_chars_app, Hf.
    change (all_chars query_char (String "&" (join (g :: r))))
      with (query_char "&" && all_chars query_char (join (g :: r))).
    rewrite (IH Hr). reflexivity.
Qed.

Lemma flat_map_absent (pre : list string) :
  Forall (fun f => Forall (fun p => fst p <> "url") (parse_field f)) pre ->
  Forall (fun p => fst p <> "url") (flat_map parse_field pre).
Proof.
  induction 1 as [|f fs Hf _ IH]; simpl; [constructor|].
  apply Forall_app. split; [exact Hf | exact IH].
Qed.

Section Resolve.

Variable strict_netloc_refuses : string -> bool.

Lemma urlsplit_raises (raw : string) (e : exn) :
  urlsplit strict_netloc_refuses raw = Raise e -> e = ValueError.
Proof.
  unfold urlsplit.
  destruct (after_slashes _) as [after|]; simpl.
  - destruct (splitnetloc after) as [n rest].
    unfold check_netloc.
    destruct (xorb _ _); simpl.
    + intros H. injection H as <-. reflexivity.
    + destruct (_ && _); simpl.
      * intros H. injection H as <-. reflexivity.
      * repeat match goal with
               | |- context [split_once ?c ?s] =>
                   destruct (split_once c s) as [[? ?]|]
               end; discriminate.
  - repeat match goal with
           | |- context [split_once ?c ?s] =>
               destruct (split_once c s) as [[? ?]|]
           end; discriminate.
Qed.

(** X10.  Resolving a URL text fails in one way only: with the
    [ValueError] of [urlparse].  Reading the query, looking [url] up and
    taking the first value never fail: neither a query without [url] nor
    any other text makes the indexing or the lookup raise. *)
Theorem resolver_raises_only_value_error (raw : string) (e : exn) :
  resolve strict_netloc_refuses raw = Raise e ->
  e = ValueError
  /\ urlparse strict_netloc_refuses raw = Raise ValueError.
Proof.
  unfold resolve. intros H.
  destruct (urlparse strict_netloc_refuses raw) as [parsed|e'] eqn:Hp.
  - simpl in H. rewrite UrlFacts.parse_qs_get_first in H. discriminate.
  - simpl in H. injection H as <-.
    pose proof (urlsplit_raises raw e' Hp) as ->. auto.
Qed.

(** X11.  The redirect form.  For a URL made of a plain prefix, a [?] and
    fields joined with [&], where the field [url=v] has a value that is
    not empty and no field before it gives [url] a value, the resolver
    returns [v] with [+] read as a space and the percent escapes decoded,
    whatever the authority check would refuse and whatever fields
    follow. *)
Theorem redirect_destination (b : string) (pre : list string) (v : string)
    (post : list string) :
  all_chars plain_char b = true ->
  forallb field_ok (pre ++ ("url=" +:+ v) :: post) = true ->
  v <> EmptyString ->
  Forall (fun f => Forall (fun p => fst p <> "url") (parse_field f)) pre ->
  resolve strict_netloc_refuses
    (b +:+ String "?" (join (pre ++ ("url=" +:+ v) :: post)))
  = Ok (unquote_plus v).
Proof.
  intros Hb Hf Hv Hpre.
  destruct (UrlFacts.urlsplit_plain_query strict_netloc_refuses b
              (join (pre ++ ("url=" +:+ v) :: post)) Hb
              (join_query_chars _ Hf)) as (parsed & Hp & Hq).
  rewrite (UrlFacts.resolve_first_value strict_netloc_refuses _ parsed Hp).
  rewrite Hq, UrlFacts.parse_qsl_fields, split_on_join;
    [|destruct pre; discriminate | exact Hf].
  rewrite flat_map_app. cbn [flat_map].
  change ("url=" +:+ v) with ("url" +:+ String "=" v).
  rewrite (UrlFacts.parse_field_pair "url" v eq_refl Hv).
  rewrite UrlFacts.values_of_app.
  rewrite (UrlFacts.values_of_absent "url" _ (flat_map_absent pre Hpre)).
  reflexivity.
Qed.

End Resolve.

Lemma resolver_raises_only_value_error_witness :
  ValueError = ValueError
  /\ urlparse lenient "http://[/?url=a" = Raise ValueError.
Proof.
  apply (resolver_raises_only_value_error lenient "http://[/?url=a").
  vm_compute. reflexivity.
Defined.

Lemma redirect_destination_witness :
  resolve lenient
    "https://www.google.com/url?rct=j&sa=t&url=https://news.example/a%3Fb+c&ct=ga"
  = Ok "https://news.example/a?b c".
Proof.
  apply (redirect_destination lenient "https://www.google.com/url"
           ["rct=j"; "sa=t"] "https://news.example/a%3Fb+c" ["ct=ga"]).
  - reflexivity.
  - reflexivity.
  - discriminate.
  - repeat constructor; simpl; discriminate.
Defined.

End QueryFacts.

(** ** More on the unwrapping of the bold tags *)

Module OutlineFacts.
Import Html Outline.

Lemma outline_strip_node (x : node) :
  flat_map outline (strip_b x) = outline x.
Proof.
  apply (HtmlFacts.node_induction
           (fun x => flat_map outline (strip_b x) = outline x)).
  - reflexivity.
  - intros j name attrs ch Hch.
    assert (E : flat_map outline (flat_map strip_b ch)
                = flat_map outline ch).
    { induction Hch as [|y r Hy _ IH]; [reflexivity|].
      cbn [flat_map]. rewrite flat_map_app, Hy, IH. reflexivity. }
    cbn [strip_b outline]. destruct (String.eqb name "b") eqn:B.
    + rewrite E. reflexivity.
    + cbn [flat_map outline]. rewrite B, app_nil_r, E. reflexivity.
Qed.

Lemma outline_strip (l : list node) :
  flat_map outline (flat_map strip_b l) = flat_map outline l.
Proof.
  induction l as [|x l IH]; [reflexivity|].
  cbn [flat_map]. rewrite flat_map_app, outline_strip_node, IH.
  reflexivity.
Qed.

Lemma filter_none {A} (p : A -> bool) (l : list A) :
  Forall (fun y => p y = false) l -> List.filter p l = [].
Proof.
  induction 1 as [|y l Hy _ IH]; [reflexivity|].
  simpl. rewrite Hy. exact IH.
Qed.

(** An element without [b] descendants is left as it is. *)
Lemma clean_bold_nothing_to_do (i : nat) (name : string)
    (attrs : list (string * string)) (ch : list node) :
  Forall (fun y => has_name "b" y = false) (preorder ch) ->
  clean_bold (Tag i name attrs ch) = Tag i name attrs ch.
Proof.
  intros H. unfold clean_bold, bold_tags, find_all.
  rewrite (filter_none _ _ H). reflexivity.
Qed.

(** X12.  Besides the [b] tags themselves the unwrapping loses and moves
    nothing: the texts and all other tags of the article element, with
    their names and attributes, are the same and in the same order after
    the loop of lines 117-118. *)
Theorem unwrapping_keeps_everything_else (i : nat) (name : string)
    (attrs : list (string * string)) (ch : list node) :
  NoDup (tag_ids ch) ->
  flat_map outline
    (match clean_bold (Tag i name attrs ch) with
     | Tag _ _ _ ch' => ch'
     | Text _ => []
     end)
  = flat_map outline ch
  /\ node_id (clean_bold (Tag i name attrs ch)) = Some i
  /\ is_article (clean_bold (Tag i name attrs ch))
     = is_article (Tag i name attrs ch).
Proof.
  intros Hnd. rewrite (HtmlFacts.clean_bold_strip i name attrs ch Hnd).
  split; [apply outline_strip|]. split; reflexivity.
Qed.

(** X13.  Running the loop of lines 117-118 a second time on the cleaned
    element changes nothing. *)
Theorem clean_bold_idempotent (i : nat) (name : string)
    (attrs : list (string * string)) (ch : list node) :
  NoDup (tag_ids ch) ->
  clean_bold (clean_bold (Tag i name attrs ch))
  = clean_bold (Tag i name attrs ch).
Proof.
  intros Hnd. rewrite (HtmlFacts.clean_bold_strip i name attrs ch Hnd).
  apply clean_bold_nothing_to_do, HtmlFacts.strip_b_no_bold.
Qed.

Lemma unwrapping_keeps_everything_else_witness :
  flat_map outline
    (match clean_bold Sample.first_article with
     | Tag _ _ _ ch' => ch'
     | Text _ => []
     end)
  = flat_map outline
      (match Sample.first_article with
       | Tag _ _ _ ch => ch
       | Text _ => []
       end)
  /\ node_id (clean_bold Sample.first_article) = node_id Sample.first_article
  /\ is_article (clean_bold Sample.first_article)
     = is_article Sample.first_article.
Proof.
  apply unwrapping_keeps_everything_else.
  apply (bool_decide_unpack (NoDup _)). vm_compute. exact I.
Defined.

Lemma clean_bold_idempotent_witness :
  clean_bold (clean_bold Sample.first_article)
  = clean_bold Sample.first_article.
Proof.
  apply clean_bold_idempotent.
  apply (bool_decide_unpack (NoDup _)). vm_compute. exact I.
Defined.

End OutlineFacts.

(** ** Where the fields of a row come from *)

Module RowFacts.
Import Py St Html Articles.

Section Loop.

Variable strict_netloc_refuses : string -> bool.
Variable extract : string -> res (list value).

Abbreviation article_row := (Articles.article_row strict_netloc_refuses extract).


End Loop.


End RowFacts.
